(** * Reddit Lead Manager: a shallow embedding and its checked properties

    The program keeps one table of leads in a pandas [DataFrame], merges a
    freshly imported CSV with the triage state recorded so far
    ([lead_manager.py]), persists the table as a CSV file ([storage.py]),
    computes a few aggregates over it ([analytics.py]) and formats dates and
    free text ([utils.py]).

    Conventions of the embedding.
    - Python strings are Rocq [string]s; the character classes used by the
      code (digits, white space) are the ASCII ones.
    - A cell of a frame is either a missing value ([NaN]) or a text
      ([Str s]).  Numeric and boolean cells, and the dtype of a column, are
      outside the modelled domain.
    - A [DataFrame] is stored by columns, as pandas does: a list of row
      labels and, per column name, the list of its cells.
    - A Python exception is a value of [exn]; a function that may raise
      returns [exn + A].
    - True division on floats is written in exact rational arithmetic [Q]:
      the values stated for percentages and means are the exact quotients
      that the floating-point results approximate. *)

From Stdlib Require Import ZArith QArith String Ascii List.
From stdpp Require Import gmap strings list pretty.

Local Open Scope string_scope.
Local Open Scope list_scope.

(** ** Exceptions *)

Inductive exn : Type :=
| ValueError (msg : string)
| KeyError (repr : string)
| AttributeError (msg : string)
| OtherException (msg : string).

(** [str(e)] *)
Definition str_exn (e : exn) : string :=
  match e with
  | ValueError m => m
  | KeyError r => r
  | AttributeError m => m
  | OtherException m => m
  end.

Definition is_ValueError (e : exn) : bool :=
  match e with ValueError _ => true | _ => false end.

Definition raise {A} (e : exn) : exn + A := inl e.

#[global] Instance exn_ret : MRet (sum exn) := fun _ x => inr x.
#[global] Instance exn_bind : MBind (sum exn) :=
  fun _ _ f m => match m with inl e => inl e | inr x => f x end.

(** ** The fragment of pandas the program uses *)

Module pd.

Inductive cell : Type :=
| NaN
| Str (s : string).

#[global] Instance cell_eq_dec : EqDecision cell.
Proof. solve_decision. Defined.

Definition cell_to_option (c : cell) : option string :=
  match c with NaN => None | Str s => Some s end.
Definition cell_of_option (o : option string) : cell :=
  match o with None => NaN | Some s => Str s end.

#[global] Instance cell_countable : Countable cell.
Proof.
  apply (inj_countable' cell_to_option cell_of_option).
  by intros [].
Defined.

(** [pd.isna(x)] *)
Definition isna (c : cell) : bool :=
  match c with NaN => true | Str _ => false end.

(** [str(x)]; the float NaN prints as ["nan"]. *)
Definition str (c : cell) : string :=
  match c with NaN => "nan" | Str s => s end.

Record DataFrame : Type := mkDataFrame {
  index : list Z;
  data : list (string * list cell)
}.

#[global] Instance DataFrame_eq_dec : EqDecision DataFrame.
Proof. solve_decision. Defined.

(** [df.columns] *)
Definition columns (df : DataFrame) : list string := (data df).*1.

(** [len(df)] *)
Definition len (df : DataFrame) : nat := length (index df).

(** [df.empty]: some axis has length 0. *)
Definition empty (df : DataFrame) : bool :=
  bool_decide (index df = []) || bool_decide (data df = []).

(** [pd.DataFrame(columns=cols)] *)
Definition new_frame (cols : list string) : DataFrame :=
  {| index := []; data := (fun c => (c, [])) <$> cols |}.

(** Row labels are distinct, column names are distinct, and every column
    has one cell per row label. *)
Definition wf (df : DataFrame) : bool :=
  bool_decide (NoDup (index df))
  && bool_decide (NoDup (columns df))
  && forallb (fun p => bool_decide (length p.2 = len df)) (data df).

(** [c in df.columns] *)
Definition has_column (c : string) (df : DataFrame) : bool :=
  bool_decide (c ∈ columns df).

Fixpoint lookup_column (c : string) (d : list (string * list cell))
  : option (list cell) :=
  match d with
  | [] => None
  | (c', s) :: d' => if decide (c' = c) then Some s else lookup_column c d'
  end.

(** [df[c]]: a [KeyError] when there is no such column. *)
Definition getitem (c : string) (df : DataFrame) : exn + list cell :=
  match lookup_column c (data df) with
  | Some s => inr s
  | None => raise (KeyError ("'" +:+ c +:+ "'"))
  end.

(** [df.c]: attribute access to a column. *)
Definition getattr (c : string) (df : DataFrame) : exn + list cell :=
  match lookup_column c (data df) with
  | Some s => inr s
  | None =>
      raise (AttributeError ("'DataFrame' object has no attribute '" +:+ c +:+ "'"))
  end.

Fixpoint assign_column (c : string) (s : list cell)
    (d : list (string * list cell)) : list (string * list cell) :=
  match d with
  | [] => [(c, s)]
  | (c', s') :: d' =>
      if decide (c' = c) then (c', s) :: d'
      else (c', s') :: assign_column c s d'
  end.

(** [df[c] = s]: replaces the column, or adds it as the last one. *)
Definition setitem (c : string) (s : list cell) (df : DataFrame) : DataFrame :=
  {| index := index df; data := assign_column c s (data df) |}.

(** [df[c] = scalar] *)
Definition setitem_scalar (c : string) (v : cell) (df : DataFrame) : DataFrame :=
  setitem c (replicate (len df) v) df.

(** [s.fillna(v)] *)
Definition fillna (v : cell) (s : list cell) : list cell :=
  (fun c => if isna c then v else c) <$> s.

(** [s.astype(str)] *)
Definition astype_str (s : list cell) : list cell :=
  (fun c => Str (str c)) <$> s.

(** [pd.Series(values, index=keys).to_dict()]: a key that occurs more than
    once keeps the value of its last occurrence. *)
Definition to_dict (keys values : list cell) : gmap cell cell :=
  foldl (fun m kv => <[kv.1 := kv.2]> m) ∅ (zip keys values).

(** [s.isin(d.keys())] *)
Definition isin (s : list cell) (d : gmap cell cell) : list bool :=
  (fun c => bool_decide (is_Some (d !! c))) <$> s.

(** [s.map(d)]: a value that is not a key maps to NaN. *)
Definition map_dict (s : list cell) (d : gmap cell cell) : list cell :=
  (fun c => default NaN (d !! c)) <$> s.

Fixpoint where_mask (mask : list bool) (new old : list cell) : list cell :=
  match mask, new, old with
  | b :: mask', n :: new', o :: old' =>
      (if b then n else o) :: where_mask mask' new' old'
  | _, _, _ => old
  end.

(** [df.loc[mask, c] = new]: on the rows selected by the mask the cell of
    column [c] is replaced by the cell of [new] on the same row. *)
Definition loc_setitem (mask : list bool) (c : string) (new : list cell)
    (df : DataFrame) : exn + DataFrame :=
  old ← getitem c df;
  mret (setitem c (where_mask mask new old) df).

(** Position of a row label in the index. *)
Fixpoint get_loc (idx : Z) (ix : list Z) : option nat :=
  match ix with
  | [] => None
  | i :: ix' => if decide (i = idx) then Some 0%nat else S <$> get_loc idx ix'
  end.

(** [df.at[idx, c]] read: a [KeyError] for an unknown column or label. *)
Definition at_get (idx : Z) (c : string) (df : DataFrame) : exn + cell :=
  s ← getitem c df;
  match get_loc idx (index df) with
  | Some i => mret (default NaN (s !! i))
  | None => raise (KeyError (pretty idx))
  end.

Definition enlarge_rows (idx : Z) (df : DataFrame) : DataFrame :=
  if decide (idx ∈ index df) then df
  else {| index := index df ++ [idx];
          data := (fun p => (p.1, p.2 ++ [NaN])) <$> data df |}.

Definition enlarge_columns (c : string) (df : DataFrame) : DataFrame :=
  if has_column c df then df else setitem_scalar c NaN df.

(** [df.at[idx, c] = v]: writes one cell.  When the label or the column
    does not exist yet pandas falls back to [.loc], which first adds the
    row or the column, filled with missing values. *)
Definition at_set (idx : Z) (c : string) (v : cell) (df : DataFrame) : DataFrame :=
  let df' := enlarge_columns c (enlarge_rows idx df) in
  match get_loc idx (index df'), lookup_column c (data df') with
  | Some i, Some s => setitem c (<[i := v]> s) df'
  | _, _ => df'
  end.

(** The cells of row number [i], in column order, and the list of rows. *)
Definition row_at (df : DataFrame) (i : nat) : list cell :=
  (fun p => default NaN (p.2 !! i)) <$> data df.

Definition rows (df : DataFrame) : list (list cell) :=
  row_at df <$> seq 0 (len df).

(** *** CSV files

    A CSV file is kept as the grid of its fields, a header line and the
    records below it: quoting and line ends are the library's business and
    are taken to give back each field as it was written. *)

Record csv_file : Type := mkCsv {
  header : list string;
  records : list (list string)
}.

(** [df.to_csv(path, index=False)]: a missing value is written as the
    empty field. *)
Definition csv_field (c : cell) : string :=
  match c with NaN => "" | Str s => s end.

Definition to_csv (df : DataFrame) : csv_file :=
  {| header := columns df;
     records := (fun r : list cell => csv_field <$> r) <$> rows df |}.

(** The fields that [pd.read_csv] reads as a missing value by default. *)
Definition na_values : list string :=
  [""; "#N/A"; "#N/A N/A"; "#NA"; "-1.#IND"; "-1.#QNAN"; "-NaN"; "-nan";
   "1.#IND"; "1.#QNAN"; "<NA>"; "N/A"; "NA"; "NULL"; "NaN"; "None"; "n/a";
   "nan"; "null"].

Definition read_field (f : option string) : cell :=
  match f with
  | None => NaN
  | Some s => if decide (s ∈ na_values) then NaN else Str s
  end.

(** [pd.read_csv(path)]: the first line names the columns, the rows are
    labelled 0, 1, ...; a file without a header line raises
    [EmptyDataError], a [ValueError].  A record shorter than the header is
    completed with missing values.  Not modelled: the conversion of a
    column made only of numeric or boolean literals (the cells of the
    tables considered here are text), and the renaming of a column whose
    name is empty or repeated. *)
Definition read_csv (f : csv_file) : exn + DataFrame :=
  match header f with
  | [] => raise (ValueError "No columns to parse from file")
  | _ =>
      mret {| index := Z.of_nat <$> seq 0 (length (records f));
              data := imap (fun j c => (c, (fun r : list string => read_field (r !! j)) <$> records f))
                           (header f) |}
  end.

End pd.

Import pd.

(** ** The fragment of [datetime] the program uses *)

Module datetime.

Record datetime : Type := mkDatetime {
  year : Z; month : Z; day : Z; hour : Z; minute : Z; second : Z
}.

Definition digit_of (a : ascii) : option Z :=
  let n := Z.of_nat (nat_of_ascii a) in
  if (48 <=? n)%Z && (n <=? 57)%Z then Some (n - 48)%Z else None.

Definition between (lo hi x : Z) : bool := (lo <=? x)%Z && (x <=? hi)%Z.

(** A group of the regular expression that [strptime] builds for one
    directive is a list of alternatives, tried in order; an alternative
    reads a value from the front of the text. *)
Definition alternative : Type := list ascii -> option (Z * list ascii).

(** [[p1][p2]]: two digits *)
Definition two_digits (p1 p2 : Z -> bool) : alternative := fun s =>
  match s with
  | a :: b :: r =>
      match digit_of a, digit_of b with
      | Some x, Some y => if p1 x && p2 y then Some (10 * x + y, r)%Z else None
      | _, _ => None
      end
  | _ => None
  end.

(** [[p]]: one digit *)
Definition one_digit (p : Z -> bool) : alternative := fun s =>
  match s with
  | a :: r =>
      match digit_of a with
      | Some x => if p x then Some (x, r) else None
      | None => None
      end
  | _ => None
  end.

(** [ [p]]: a space, then one digit *)
Definition space_digit (p : Z -> bool) : alternative := fun s =>
  match s with
  | a :: r => if decide (a = " "%char) then one_digit p r else None
  | _ => None
  end.

(** [\d\d\d\d] *)
Definition four_digits : alternative := fun s =>
  match s with
  | a :: b :: c :: d :: r =>
      match digit_of a, digit_of b, digit_of c, digit_of d with
      | Some x, Some y, Some z, Some w =>
          Some (1000 * x + 100 * y + 10 * z + w, r)%Z
      | _, _, _, _ => None
      end
  | _ => None
  end.

Definition any_digit (x : Z) : bool := true.

(** The groups of CPython's [_strptime.TimeRE] for the directives used:
    [%Y] is [\d\d\d\d], [%m] is [1[0-2]|0[1-9]|[1-9]],
    [%d] is [3[0-1]|[1-2]\d|0[1-9]|[1-9]| [1-9]],
    [%H] is [2[0-3]|[0-1]\d|\d], [%M] is [[0-5]\d|\d] and
    [%S] is [6[0-1]|[0-5]\d|\d]. *)
Definition directive (c : ascii) : option (list alternative) :=
  if decide (c = "Y"%char) then Some [four_digits]
  else if decide (c = "m"%char) then
    Some [two_digits (between 1 1) (between 0 2);
          two_digits (between 0 0) (between 1 9);
          one_digit (between 1 9)]
  else if decide (c = "d"%char) then
    Some [two_digits (between 3 3) (between 0 1);
          two_digits (between 1 2) any_digit;
          two_digits (between 0 0) (between 1 9);
          one_digit (between 1 9);
          space_digit (between 1 9)]
  else if decide (c = "H"%char) then
    Some [two_digits (between 2 2) (between 0 3);
          two_digits (between 0 1) any_digit;
          one_digit any_digit]
  else if decide (c = "M"%char) then
    Some [two_digits (between 0 5) any_digit; one_digit any_digit]
  else if decide (c = "S"%char) then
    Some [two_digits (between 6 6) (between 0 1);
          two_digits (between 0 5) any_digit;
          one_digit any_digit]
  else None.

Inductive item : Type :=
| Directive (c : ascii) (alts : list alternative)
| Literal (a : ascii).

(** The format, read from left to right; [None] for a directive that is not
    among the six above. *)
Fixpoint compile_format (fmt : list ascii) : option (list item) :=
  match fmt with
  | [] => Some []
  | a :: fmt' =>
      if decide (a = "%"%char) then
        match fmt' with
        | c :: fmt'' =>
            match directive c, compile_format fmt'' with
            | Some alts, Some items => Some (Directive c alts :: items)
            | _, _ => None
            end
        | [] => None
        end
      else
        match compile_format fmt' with
        | Some items => Some (Literal a :: items)
        | None => None
        end
  end.

(** The expression is compiled with [re.IGNORECASE]. *)
Definition lower (a : ascii) : ascii :=
  let n := nat_of_ascii a in
  if (65 <=? n)%nat && (n <=? 90)%nat then ascii_of_nat (n + 32) else a.

Definition eq_ignore_case (a b : ascii) : bool :=
  bool_decide (lower a = lower b).

(** [re.match]: the first way, in the order of the alternatives, to match a
    prefix of the text; the values read and the text left over. *)
Fixpoint regex_match (items : list item) (s : list ascii)
  : option (list (ascii * Z) * list ascii) :=
  match items with
  | [] => Some ([], s)
  | Literal a :: items' =>
      match s with
      | c :: s' => if eq_ignore_case a c then regex_match items' s' else None
      | [] => None
      end
  | Directive c alts :: items' =>
      (fix try (alts : list alternative) :=
         match alts with
         | [] => None
         | g :: alts' =>
             match
               match g s with
               | Some (v, r) =>
                   match regex_match items' r with
                   | Some (vs, rest) => Some ((c, v) :: vs, rest)
                   | None => None
                   end
               | None => None
               end
             with
             | Some found => Some found
             | None => try alts'
             end
         end) alts
  end.

Definition is_leap (y : Z) : bool :=
  ((y mod 4 =? 0) && (negb (y mod 100 =? 0) || (y mod 400 =? 0)))%Z.

Definition days_in_month (y m : Z) : Z :=
  if (m =? 2)%Z then (if is_leap y then 29 else 28)%Z
  else if ((m =? 4) || (m =? 6) || (m =? 9) || (m =? 11))%Z then 30%Z
  else 31%Z.

(** The constructor [datetime(year, month, day, hour, minute, second)]. *)
Definition make (y m d h mi s : Z) : exn + datetime :=
  if negb (between 1 9999 y) then raise (ValueError "year is out of range")
  else if negb (between 1 12 m) then raise (ValueError "month must be in 1..12")
  else if negb (between 1 (days_in_month y m) d) then
    raise (ValueError "day is out of range for month")
  else if negb (between 0 23 h) then raise (ValueError "hour must be in 0..23")
  else if negb (between 0 59 mi) then raise (ValueError "minute must be in 0..59")
  else if negb (between 0 59 s) then raise (ValueError "second must be in 0..59")
  else mret (mkDatetime y m d h mi s).

(** The value read for a directive; the defaults are those of [_strptime]:
    year 1900, month and day 1, time of day 0. *)
Fixpoint found (c : ascii) (dflt : Z) (vs : list (ascii * Z)) : Z :=
  match vs with
  | [] => dflt
  | (c', v) :: vs' => if decide (c' = c) then v else found c dflt vs'
  end.

(** [datetime.strptime(date_string, format)] *)
Definition strptime (date_string format : string) : exn + datetime :=
  match compile_format (list_ascii_of_string format) with
  | None => raise (ValueError "bad directive in format")
  | Some items =>
      match regex_match items (list_ascii_of_string date_string) with
      | None => raise (ValueError "time data does not match format")
      | Some (vs, rest) =>
          match rest with
          | _ :: _ => raise (ValueError "unconverted data remains")
          | [] =>
              make (found "Y" 1900 vs) (found "m" 1 vs) (found "d" 1 vs)
                   (found "H" 0 vs) (found "M" 0 vs) (found "S" 0 vs)
          end
      end
  end.

Definition month_names : list string :=
  ["January"; "February"; "March"; "April"; "May"; "June"; "July";
   "August"; "September"; "October"; "November"; "December"].

Definition month_name (m : Z) : string :=
  default "" (month_names !! Z.to_nat (m - 1)).

Definition pad2 (z : Z) : string :=
  if (z <? 10)%Z then "0" +:+ pretty z else pretty z.

(** One directive of [strftime]: [%B] is the English month name, [%Y] the
    year in decimal as the C library prints it (four digits from the year
    1000 on), the others two digits. *)
Definition render (c : ascii) (d : datetime) : string :=
  if decide (c = "B"%char) then month_name (month d)
  else if decide (c = "Y"%char) then pretty (year d)
  else if decide (c = "m"%char) then pad2 (month d)
  else if decide (c = "d"%char) then pad2 (day d)
  else if decide (c = "H"%char) then pad2 (hour d)
  else if decide (c = "M"%char) then pad2 (minute d)
  else if decide (c = "S"%char) then pad2 (second d)
  else String "%" (String c EmptyString).

Fixpoint strftime_chars (fmt : list ascii) (d : datetime) : string :=
  match fmt with
  | [] => ""
  | a :: fmt' =>
      if decide (a = "%"%char) then
        match fmt' with
        | c :: fmt'' => render c d +:+ strftime_chars fmt'' d
        | [] => "%"
        end
      else String a (strftime_chars fmt' d)
  end.

(** [d.strftime(format)] *)
Definition strftime (format : string) (d : datetime) : string :=
  strftime_chars (list_ascii_of_string format) d.

(** The system clock: the local time at each instant, the instant reached
    and the number of times the clock has been read so far.  Time moves on
    between any two steps of the program; how far is up to [time_at]. *)
Record Clock : Type := mkClock {
  time_at : nat -> datetime;
  instant : nat;
  reads : nat
}.

Definition elapse (k : Clock) : Clock :=
  {| time_at := time_at k; instant := S (instant k); reads := reads k |}.

(** [datetime.now()] *)
Definition now (k : Clock) : datetime * Clock :=
  (time_at k (instant k),
   {| time_at := time_at k; instant := S (instant k); reads := S (reads k) |}).

End datetime.

(** ** utils.py *)

Module utils.

(** [format_date]: the bare [except] turns every failure of [strptime] into
    the input being returned as it is. *)
Definition format_date (date_str : string) : string :=
  match datetime.strptime date_str "%Y-%m-%dT%H:%M:%S.000-04:00" with
  | inr date => datetime.strftime "%B %d, %Y" date
  | inl _ => date_str
  end.

Definition newline : ascii := ascii_of_nat 10.

(** [re.sub] of the pattern [ch{k,}] by [repl]: every maximal run of at
    least [k] copies of [ch] is replaced; [run] counts the copies of [ch]
    read since the last other character. *)
Definition flush_run (ch : ascii) (k : nat) (repl : list ascii) (run : nat)
  : list ascii :=
  if (k <=? run)%nat then repl else replicate run ch.

Fixpoint sub_runs (ch : ascii) (k : nat) (repl : list ascii) (run : nat)
    (s : list ascii) : list ascii :=
  match s with
  | [] => flush_run ch k repl run
  | c :: s' =>
      if decide (c = ch) then sub_runs ch k repl (S run) s'
      else flush_run ch k repl run ++ c :: sub_runs ch k repl 0 s'
  end.

(** The ASCII characters for which [str.isspace] holds. *)
Definition is_space (a : ascii) : bool :=
  let n := nat_of_ascii a in
  ((9 <=? n) && (n <=? 13) || (28 <=? n) && (n <=? 32))%nat.

Fixpoint lstrip (s : list ascii) : list ascii :=
  match s with
  | c :: s' => if is_space c then lstrip s' else s
  | [] => []
  end.

(** [text.strip()] *)
Definition strip (s : list ascii) : list ascii :=
  rev (lstrip (rev (lstrip s))).

(** [clean_text]: a value that is not a string gives the empty string. *)
Definition clean_text (text : cell) : string :=
  match text with
  | NaN => ""
  | Str text =>
      let text := sub_runs newline 3 [newline; newline] 0 (list_ascii_of_string text) in
      let text := sub_runs " "%char 2 [" "%char] 0 text in
      let text := strip text in
      string_of_list_ascii text
  end.

End utils.

(** ** storage.py *)

Module storage.

(** The store is the content of [data/progress.csv], if the file exists.
    [writable] tells whether writing the file succeeds and [writes] counts
    the writes made.  What the two methods print when they catch an
    exception is not kept. *)
Record LocalStorage : Type := mkStorage {
  progress_file : option csv_file;
  writable : bool;
  writes : nat
}.

Definition load_progress (self : LocalStorage) : option DataFrame :=
  match progress_file self with
  | None => None
  | Some f =>
      match read_csv f with
      | inr df => Some df
      | inl _ => None
      end
  end.

Definition save_progress (df : DataFrame) (self : LocalStorage) : LocalStorage :=
  if writable self then
    {| progress_file := Some (to_csv df);
       writable := writable self;
       writes := S (writes self) |}
  else self.

End storage.

(** ** lead_manager.py *)

Module lead_manager.

Import storage.

Record LeadManager : Type := mkLeadManager {
  storage : LocalStorage;
  _leads_df : DataFrame
}.

Definition lead_columns : list string :=
  ["summary"; "lowHangingFruit"; "originalPost"; "solution";
   "date"; "url"; "subreddit"; "status"; "notes"].

Definition load_leads (st : LocalStorage) : LeadManager :=
  {| storage := st;
     _leads_df :=
       match load_progress st with
       | Some df => df
       | None => new_frame lead_columns
       end |}.

(** [LeadManager(storage)] *)
Definition init (st : LocalStorage) : LeadManager := load_leads st.

Definition required_columns : list string :=
  ["summary"; "lowHangingFruit"; "originalPost"; "solution";
   "date"; "url"; "subreddit"].

Definition text_columns : list string :=
  ["summary"; "lowHangingFruit"; "originalPost"; "solution"].

Definition missing_columns (new_leads : DataFrame) : list string :=
  filter (fun col => col ∉ columns new_leads) required_columns.

(** [new_leads[col] = new_leads[col].apply(clean_text)] *)
Definition clean_column (col : string) (new_leads : DataFrame) : exn + DataFrame :=
  s ← getitem col new_leads;
  mret (setitem col ((fun c => Str (utils.clean_text c)) <$> s) new_leads).

Definition clean_columns (new_leads : DataFrame) : exn + DataFrame :=
  foldl (fun acc col => df ← acc; clean_column col df) (mret new_leads) text_columns.

(** The branch taken when there is a table already: status and notes of
    the leads known by their url are taken from it. *)
Definition merge_existing (existing new_leads : DataFrame) : exn + DataFrame :=
  status ← getattr "status" existing;
  url ← getattr "url" existing;
  let existing_status := to_dict url status in
  notes ← getattr "notes" existing;
  url ← getattr "url" existing;
  let existing_notes := to_dict url (astype_str (fillna (Str "") notes)) in
  new_url ← getattr "url" new_leads;
  new_leads ← loc_setitem (isin new_url existing_status) "status"
                          (map_dict new_url existing_status) new_leads;
  new_url ← getattr "url" new_leads;
  loc_setitem (isin new_url existing_notes) "notes"
              (map_dict new_url existing_notes) new_leads.

(** The body of the [try] of [sync_leads], up to the table that becomes the
    new one.  [csv] is the outcome of the call of [pd.read_csv], on the
    uploaded file or on the default one. *)
Definition merged_leads (existing : DataFrame) (csv : exn + DataFrame)
  : exn + DataFrame :=
  new_leads ← csv;
  if bool_decide (missing_columns new_leads ≠ []) then
    raise (ValueError ("Missing required columns: "
                       +:+ String.concat ", " (missing_columns new_leads)))
  else
    new_leads ← clean_columns new_leads;
    let new_leads :=
      if has_column "status" new_leads then new_leads
      else setitem_scalar "status" (Str "New") new_leads in
    let new_leads :=
      if has_column "notes" new_leads then new_leads
      else setitem_scalar "notes" (Str "") new_leads in
    notes ← getitem "notes" new_leads;
    let new_leads := setitem "notes" (astype_str (fillna (Str "") notes)) new_leads in
    if negb (empty existing) then merge_existing existing new_leads
    else mret new_leads.

Definition sync_leads (csv : exn + DataFrame) (self : LeadManager)
  : LeadManager * (bool * option string) :=
  match merged_leads (_leads_df self) csv with
  | inr new_leads =>
      ({| storage := save_progress new_leads (storage self);
          _leads_df := new_leads |},
       (true, None))
  | inl e =>
      if is_ValueError e then (self, (false, Some (str_exn e)))
      else (self, (false, Some ("Error processing CSV file: " +:+ str_exn e)))
  end.

Definition get_leads (self : LeadManager) : DataFrame := _leads_df self.

Definition update_lead_status (idx : Z) (status : string) (self : LeadManager)
  : LeadManager :=
  let df := at_set idx "status" (Str status) (_leads_df self) in
  {| storage := save_progress df (storage self); _leads_df := df |}.

Definition bulk_update_status (indices : list Z) (status : string)
    (self : LeadManager) : LeadManager :=
  let df := foldl (fun df idx => at_set idx "status" (Str status) df)
                  (_leads_df self) indices in
  {| storage := save_progress df (storage self); _leads_df := df |}.

(** The loop of [bulk_append_notes]; an exception leaves the loop with the
    table as it is by then. *)
Fixpoint append_notes (indices : list Z) (formatted_note : string)
    (df : DataFrame) (clk : datetime.Clock)
  : DataFrame * datetime.Clock * option exn :=
  match indices with
  | [] => (df, clk, None)
  | idx :: indices' =>
      let clk := datetime.elapse clk in
      match at_get idx "notes" df with
      | inl e => (df, clk, Some e)
      | inr current_notes =>
          let current_notes :=
            if isna current_notes then "" else pd.str current_notes in
          let df := at_set idx "notes" (Str (current_notes +:+ formatted_note)) df in
          append_notes indices' formatted_note df clk
      end
  end.

(** The line that [bulk_append_notes] adds for the time [t]. *)
Definition formatted_note (t : datetime.datetime) (notes : string) : string :=
  let timestamp := datetime.strftime "%Y-%m-%d %H:%M" t in
  String utils.newline ("[" +:+ timestamp +:+ "] " +:+ notes).

(** [bulk_append_notes]: the state after the call and the exception raised,
    if any. *)
Definition bulk_append_notes (indices : list Z) (notes : string)
    (self : LeadManager) (clk : datetime.Clock)
  : LeadManager * datetime.Clock * option exn :=
  let '(t, clk) := datetime.now clk in
  let note := formatted_note t notes in
  match append_notes indices note (_leads_df self) clk with
  | (df, clk, Some e) =>
      ({| storage := storage self; _leads_df := df |}, clk, Some e)
  | (df, clk, None) =>
      ({| storage := save_progress df (storage self); _leads_df := df |},
       clk, None)
  end.

(** [update_lead_notes].  [notes] is the value given, [NaN] standing for
    [None] or a missing value.  [is_string_dtype] is
    [pd.api.types.is_string_dtype] on the notes column; what it answers for
    a column that mixes strings and missing values depends on the version
    of pandas, so it is left as a parameter.  A table without a notes
    column raises the [KeyError] of [df['notes']]. *)
Definition update_lead_notes (is_string_dtype : list cell -> bool)
    (idx : Z) (notes : cell) (self : LeadManager) : LeadManager * option exn :=
  let notes_value :=
    if isna notes then ""
    else string_of_list_ascii (utils.strip (list_ascii_of_string (pd.str notes))) in
  match getitem "notes" (_leads_df self) with
  | inl e => (self, Some e)
  | inr column =>
      let df :=
        if negb (is_string_dtype column)
        then setitem "notes" (astype_str (fillna (Str "") column)) (_leads_df self)
        else _leads_df self in
      let df := at_set idx "notes" (Str notes_value) df in
      ({| storage := save_progress df (storage self); _leads_df := df |}, None)
  end.

End lead_manager.

(** ** analytics.py *)

Module analytics.

Import lead_manager.

Definition status_order : list string :=
  ["New"; "In Progress"; "Contacted"; "Closed"].

(** [s.value_counts()]: the number of occurrences of each value; missing
    values are not counted. *)
Definition value_counts (s : list cell) : gmap cell Z :=
  foldl (fun m c => if isna c then m else <[c := (default 0 (m !! c) + 1)%Z]> m)
        ∅ s.

(** [counts.get(label, 0)] *)
Definition get_count (counts : gmap cell Z) (label : string) : Z :=
  default 0%Z (counts !! Str label).

(** [counts.reindex(labels, fill_value=0)] *)
Definition reindex (labels : list string) (counts : gmap cell Z)
  : list (string * Z) :=
  (fun l => (l, get_count counts l)) <$> labels.

Record distribution : Type := mkDistribution {
  labels : list string;
  values : list Z
}.

Definition get_status_distribution (self : LeadManager) : exn + distribution :=
  let df := get_leads self in
  if empty df then mret {| labels := []; values := [] |}
  else
    status ← getitem "status" df;
    let status_counts := reindex status_order (value_counts status) in
    mret {| labels := status_counts.*1; values := status_counts.*2 |}.

Record funnel_entry : Type := mkFunnelEntry {
  status : string;
  count : Z;
  percentage : Q
}.

(** [(part / total * 100) if total > 0 else 0] *)
Definition percent (part total : Z) : Q :=
  if (0 <? total)%Z then (inject_Z part / inject_Z total * 100)%Q else 0%Q.

Definition get_funnel_data (self : LeadManager) : exn + list funnel_entry :=
  let df := get_leads self in
  if empty df then mret []
  else
    let total_leads := Z.of_nat (len df) in
    status ← getitem "status" df;
    let status_counts := value_counts status in
    let '(funnel_data, _) :=
      foldl (fun '(funnel_data, cumulative_count) status =>
               let count := get_count status_counts status in
               (funnel_data ++ [{| status := status;
                                   count := cumulative_count;
                                   percentage := percent cumulative_count total_leads |}],
                (cumulative_count - count)%Z))
            ([], total_leads) status_order in
    mret funnel_data.

Record response_stats : Type := mkResponseStats {
  leads_with_notes : Z;
  notes_percentage : Q;
  avg_notes_length : Q
}.

(** [s.str.len()] on a column of strings *)
Definition str_len (s : list cell) : list Z :=
  (fun c => Z.of_nat (String.length (pd.str c))) <$> s.

Definition sum_list (l : list Z) : Z := foldr Z.add 0%Z l.

(** [s.mean()] *)
Definition mean (l : list Z) : Q :=
  (inject_Z (sum_list l) / inject_Z (Z.of_nat (length l)))%Q.

(** [get_response_stats] rewrites the notes column of the manager's table,
    so the manager is returned with the result. *)
Definition get_response_stats (self : LeadManager)
  : LeadManager * (exn + response_stats) :=
  let df := get_leads self in
  if empty df then
    (self, mret {| leads_with_notes := 0; notes_percentage := 0; avg_notes_length := 0 |})
  else
    match getitem "notes" df with
    | inl e => (self, raise e)
    | inr notes =>
        let df := setitem "notes" (astype_str (fillna (Str "") notes)) df in
        let self := {| storage := storage self; _leads_df := df |} in
        (self,
         notes ← getitem "notes" df;
         let leads_with_notes :=
           Z.of_nat (length (filter (fun n => (0 < n)%Z) (str_len notes))) in
         let notes_percentage :=
           (inject_Z leads_with_notes / inject_Z (Z.of_nat (len df)) * 100)%Q in
         notes ← getitem "notes" df;
         let avg_notes_length :=
           if (0 <? leads_with_notes)%Z then mean (str_len notes) else 0%Q in
         mret {| leads_with_notes := leads_with_notes;
                 notes_percentage := notes_percentage;
                 avg_notes_length := avg_notes_length |})
    end.

Record conversion_rates : Type := mkConversionRates {
  new_to_progress : Q;
  progress_to_contacted : Q;
  contacted_to_closed : Q
}.

(** [(to_count / from_count * 100) if from_count > 0 else 0] *)
Definition calculate_rate (status_counts : gmap cell Z)
    (from_status to_status : string) : Q :=
  let from_count := get_count status_counts from_status in
  let to_count := get_count status_counts to_status in
  if (0 <? from_count)%Z
  then (inject_Z to_count / inject_Z from_count * 100)%Q else 0%Q.

Definition get_conversion_rates (self : LeadManager) : exn + conversion_rates :=
  let df := get_leads self in
  if empty df then
    mret {| new_to_progress := 0; progress_to_contacted := 0;
            contacted_to_closed := 0 |}
  else
    status ← getitem "status" df;
    let status_counts := value_counts status in
    mret {| new_to_progress := calculate_rate status_counts "New" "In Progress";
            progress_to_contacted :=
              calculate_rate status_counts "In Progress" "Contacted";
            contacted_to_closed :=
              calculate_rate status_counts "Contacted" "Closed" |}.

End analytics.

(** * Properties *)

Import storage lead_manager analytics.

(** ** Columns of a frame *)

(** The cells of a column, read without the exception. *)
Definition column (c : string) (df : DataFrame) : list cell :=
  default [] (lookup_column c (data df)).

(** The value kept for a key by a dictionary filled from a list of pairs:
    that of the last pair with this key. *)
Fixpoint assoc_last (k : cell) (l : list (cell * cell)) : option cell :=
  match l with
  | [] => None
  | (k', v) :: l' =>
      match assoc_last k l' with
      | Some v' => Some v'
      | None => if decide (k' = k) then Some v else None
      end
  end.

(** A table of leads: a well-formed frame that has the nine columns of a
    lead.  The table a manager starts from and every table [sync_leads]
    puts in place are of this kind. *)
Definition is_leads_table (df : DataFrame) : bool :=
  wf df && forallb (fun c => has_column c df) lead_columns.

(** The status and the notes that an imported table brings for its rows:
    its own columns if it has them, else 'New' and the empty string; the
    notes always as strings. *)
Definition imported_status (df : DataFrame) : list cell :=
  if decide ("status" ∈ columns df) then column "status" df
  else replicate (len df) (Str "New").

Definition imported_notes (df : DataFrame) : list cell :=
  astype_str (fillna (Str "")
    (if decide ("notes" ∈ columns df) then column "notes" df
     else replicate (len df) (Str ""))).

(** *** Counting records by status *)

Definition status_in (labels : list string) (c : cell) : bool :=
  match c with
  | Str s => bool_decide (s ∈ labels)
  | NaN => false
  end.

(** The number of cells of a status column that hold one of the labels. *)
Definition records_with (labels : list string) (statuses : list cell) : Z :=
  Z.of_nat (length (filter (fun c => status_in labels c) statuses)).

(** The labels that come strictly before [label] in [order]. *)
Fixpoint before (label : string) (order : list string) : list string :=
  match order with
  | [] => []
  | l :: order' => if decide (l = label) then [] else l :: before label order'
  end.

(** *** Notes *)

(** The number of characters of the notes of a record; missing notes count
    as empty ones. *)
Definition note_length (c : cell) : Z :=
  match c with
  | NaN => 0%Z
  | Str s => Z.of_nat (String.length s)
  end.

(** The notes that are not empty. *)
Definition with_notes (notes : list cell) : list cell :=
  filter (fun c => (0 < note_length c)%Z) notes.

(** Mean length of the notes over all the records, and over the records
    that have notes. *)
Definition mean_over_all (notes : list cell) : Q :=
  (inject_Z (sum_list (note_length <$> notes))
   / inject_Z (Z.of_nat (length notes)))%Q.


(** The notes of a record as a string: missing notes read as empty. *)
Definition notes_text (c : cell) : string :=
  if isna c then "" else pd.str c.

(** The notes column after [note] has been appended on the rows whose
    label is in [indices]. *)
Definition appended (indices : list Z) (note : string) (ix : list Z)
    (notes : list cell) : list cell :=
  zip_with (fun idx c => if decide (idx ∈ indices)
                         then Str (notes_text c +:+ note) else c)
           ix notes.

(** *** Dates written in the ISO form *)

Definition digit_char (z : Z) : ascii := ascii_of_nat (48 + Z.to_nat z).

Definition two_chars (z : Z) : list ascii :=
  [digit_char (z / 10); digit_char (z mod 10)].

Definition four_chars (z : Z) : list ascii :=
  [digit_char (z / 1000); digit_char (z / 100 mod 10);
   digit_char (z / 10 mod 10); digit_char (z mod 10)].

(** [YYYY-MM-DDTHH:MM:SS.000] followed by the offset from UTC. *)
Definition iso_string (y m d h mi s : Z) (offset : string) : string :=
  string_of_list_ascii
    (four_chars y ++ "-"%char :: two_chars m ++ "-"%char :: two_chars d
     ++ "T"%char :: two_chars h ++ ":"%char :: two_chars mi
     ++ ":"%char :: two_chars s ++ list_ascii_of_string ".000"
     ++ list_ascii_of_string offset).





(** *** Tables that are written and read back *)







(** *** The imported table before the merge *)

(** The imported table after [clean_text] has been applied to its four
    free-text columns, and after the status and notes columns have been
    added where they lack and the notes have been made strings: the table
    that [sync_leads] merges with the one in place. *)
Definition cleaned_table (df : DataFrame) : DataFrame :=
  foldl (fun df col =>
           setitem col ((fun c => Str (utils.clean_text c)) <$> column col df) df)
        df text_columns.

Definition prepared_table (df : DataFrame) : DataFrame :=
  let df1 := cleaned_table df in
  let df2 := if has_column "status" df1 then df1
             else setitem_scalar "status" (Str "New") df1 in
  let df3 := if has_column "notes" df2 then df2
             else setitem_scalar "notes" (Str "") df2 in
  setitem "notes" (astype_str (fillna (Str "") (column "notes" df3))) df3.

(** The first of the three columns that the merge reads from the table in
    place and that this table lacks. *)
Definition first_missing_attribute (existing : DataFrame) : option string :=
  head (filter (fun c => c ∉ columns existing) ["status"; "url"; "notes"]).

(** *** Ratios *)

(** [part] as a percentage of [whole], 0 when [whole] is not positive. *)
Definition ratio (whole part : Z) : Q :=
  if (0 <? whole)%Z then (inject_Z part / inject_Z whole * 100)%Q else 0%Q.

(** The number of cells of a status column that hold none of the four
    labels: another text, or no value. *)
Definition other_records (statuses : list cell) : Z :=
  Z.of_nat (length (filter (fun c => negb (status_in status_order c)) statuses)).

(** *** Runs of a character *)

(** The length of the longest run of [ch] in a text, [cur] being the length
    of the run that the text continues. *)
Fixpoint runs (ch : ascii) (cur : nat) (l : list ascii) : nat :=
  match l with
  | [] => cur
  | c :: l' =>
      if decide (c = ch) then runs ch (S cur) l'
      else Nat.max cur (runs ch 0 l')
  end.

Definition longest_run (ch : ascii) (l : list ascii) : nat := runs ch 0 l.


(** *** Sample data *)

(** A table read from a progress file that someone has stripped of its
    status column. *)
Definition sample_without_status : LeadManager :=
  {| storage := {| progress_file := None; writable := true; writes := 0 |};
     _leads_df :=
       {| index := [0]%Z;
          data := [("url", [Str "https://reddit.com/r/b/2"]);
                   ("notes", [Str "called"])] |} |}.





(** A table in place with two leads, the second one without notes. *)
Definition sample_existing : DataFrame :=
  {| index := [0; 1]%Z;
     data := [("summary", [Str "first"; Str "second"]);
              ("lowHangingFruit", [Str "yes"; Str "no"]);
              ("originalPost", [Str "post one"; Str "post two"]);
              ("solution", [Str "s1"; Str "s2"]);
              ("date", [Str "2024-01-15T10:30:00.000-04:00";
                        Str "2024-01-16T11:00:00.000-04:00"]);
              ("url", [Str "https://reddit.com/r/a/1"; Str "https://reddit.com/r/b/2"]);
              ("subreddit", [Str "a"; Str "b"]);
              ("status", [Str "Contacted"; Str "In Progress"]);
              ("notes", [Str "called"; NaN])] |}.

(** An import of the second lead, rewritten, and of a lead not seen yet. *)
Definition sample_import : DataFrame :=
  {| index := [0; 1]%Z;
     data := [("summary", [Str "second,  revised"; Str " third "]);
              ("lowHangingFruit", [Str "no"; NaN]);
              ("originalPost", [Str "post two"; Str "post three"]);
              ("solution", [Str "s2"; Str "s3"]);
              ("date", [Str "2024-01-16T11:00:00.000-04:00";
                        Str "2024-02-01T09:00:00.000+05:30"]);
              ("url", [Str "https://reddit.com/r/b/2"; Str "https://reddit.com/r/c/3"]);
              ("subreddit", [Str "b"; Str "c"])] |}.

Definition sample_manager : LeadManager :=
  {| storage := {| progress_file := None; writable := true; writes := 0 |};
     _leads_df := sample_existing |}.

(** Six leads: three new, two in progress, one contacted. *)
Definition sample_pipeline : LeadManager :=
  {| storage := {| progress_file := None; writable := true; writes := 0 |};
     _leads_df :=
       {| index := [0; 1; 2; 3; 4; 5]%Z;
          data := [("url", [Str "u0"; Str "u1"; Str "u2"; Str "u3"; Str "u4"; Str "u5"]);
                   ("status", [Str "New"; Str "In Progress"; Str "New";
                               Str "Contacted"; Str "In Progress"; Str "New"]);
                   ("notes", [Str "abcd"; Str ""; NaN; Str "ab"; Str ""; Str ""])] |} |}.

(** A manager started without a progress file: its table has no record. *)
Definition fresh_manager : LeadManager :=
  init {| progress_file := None; writable := true; writes := 0 |}.

(** An import that lists one url twice, with two statuses. *)
Definition sample_repeated_url : DataFrame :=
  {| index := [0; 1]%Z;
     data := [("summary", [Str "first"; Str "first again"]);
              ("lowHangingFruit", [Str "yes"; Str "yes"]);
              ("originalPost", [Str "post one"; Str "post one"]);
              ("solution", [Str "s1"; Str "s1"]);
              ("date", [Str "2024-01-15T10:30:00.000-04:00";
                        Str "2024-01-15T10:30:00.000-04:00"]);
              ("url", [Str "https://reddit.com/r/a/1"; Str "https://reddit.com/r/a/1"]);
              ("subreddit", [Str "a"; Str "a"]);
              ("status", [Str "Contacted"; Str "New"])] |}.

(** One new lead and two leads in progress. *)
Definition sample_two_in_progress : LeadManager :=
  {| storage := {| progress_file := None; writable := true; writes := 0 |};
     _leads_df :=
       {| index := [0; 1; 2]%Z;
          data := [("url", [Str "u0"; Str "u1"; Str "u2"]);
                   ("status", [Str "In Progress"; Str "New"; Str "In Progress"]);
                   ("notes", [Str ""; Str ""; Str ""])] |} |}.

(** One lead whose status is none of the four labels. *)
Definition sample_odd_status : LeadManager :=
  {| storage := {| progress_file := None; writable := true; writes := 0 |};
     _leads_df :=
       {| index := [0]%Z;
          data := [("url", [Str "u0"]); ("status", [Str "Archived"]);
                   ("notes", [Str ""])] |} |}.

(** A clock that shows 10:59 when the call starts and 11:00 from the next
    instant on. *)
Definition sample_clock : datetime.Clock :=
  {| datetime.time_at := fun n =>
       if decide (n = 0%nat) then datetime.mkDatetime 2024 3 9 10 59 59
       else datetime.mkDatetime 2024 3 9 11 0 0;
     datetime.instant := 0;
     datetime.reads := 0 |}.

Lemma lookup_column_is_Some c d :
  is_Some (lookup_column c d) <-> c ∈ d.*1.
Proof.
  induction d as [|[c' s] d IH]; simpl.
  - split; [intros [? ?]; discriminate | intros H; inversion H].
  - destruct (decide (c' = c)) as [->|Hne].
    + split; [intros _; left | intros _; eauto].
    + rewrite IH. split; [by right | intros H].
      inversion H; subst; [congruence | done].
Qed.

Lemma lookup_column_None c d :
  lookup_column c d = None <-> c ∉ d.*1.
Proof.
  rewrite <- lookup_column_is_Some, eq_None_not_Some. done.
Qed.

Lemma lookup_assign_column c' c s d :
  lookup_column c' (assign_column c s d)
  = if decide (c' = c) then Some s else lookup_column c' d.
Proof.
  induction d as [|[c0 s0] d IH]; simpl.
  - destruct (decide (c = c')), (decide (c' = c)); congruence.
  - destruct (decide (c0 = c)) as [->|Hne]; simpl.
    + destruct (decide (c = c')), (decide (c' = c)); congruence.
    + rewrite IH.
      destruct (decide (c0 = c')), (decide (c' = c)); congruence.
Qed.

Lemma columns_assign_column c s d :
  (assign_column c s d).*1 = if decide (c ∈ d.*1) then d.*1 else d.*1 ++ [c].
Proof.
  induction d as [|[c0 s0] d IH]; cbn [assign_column].
  - destruct (decide (c ∈ [].*1)) as [H|]; [inversion H | done].
  - destruct (decide (c0 = c)) as [->|Hne]; rewrite !fmap_cons; cbn [fst].
    + rewrite decide_True; [done | left].
    + rewrite IH. destruct (decide (c ∈ d.*1)) as [Hin|Hnin].
      * rewrite decide_True; [done | by right].
      * rewrite decide_False; [done |].
        intros H. inversion H; subst; congruence.
Qed.


Lemma getitem_column c df :
  c ∈ columns df -> getitem c df = inr (column c df).
Proof.
  intros Hin. apply lookup_column_is_Some in Hin as [s Hs].
  unfold getitem, column. by rewrite Hs.
Qed.

Lemma getattr_column c df :
  c ∈ columns df -> getattr c df = inr (column c df).
Proof.
  intros Hin. apply lookup_column_is_Some in Hin as [s Hs].
  unfold getattr, column. by rewrite Hs.
Qed.

Lemma column_setitem c' c s df :
  column c' (setitem c s df) = if decide (c' = c) then s else column c' df.
Proof.
  unfold column, setitem; simpl. rewrite lookup_assign_column.
  by destruct (decide (c' = c)).
Qed.

Lemma columns_setitem c s df :
  columns (setitem c s df)
  = if decide (c ∈ columns df) then columns df else columns df ++ [c].
Proof. apply columns_assign_column. Qed.

Lemma has_column_true c df : has_column c df = true <-> c ∈ columns df.
Proof. unfold has_column. by rewrite bool_decide_eq_true. Qed.

Lemma has_column_false c df : has_column c df = false <-> c ∉ columns df.
Proof. unfold has_column. by rewrite bool_decide_eq_false. Qed.

Lemma wf_column_length c df :
  wf df = true -> c ∈ columns df -> length (column c df) = len df.
Proof.
  unfold wf, column, columns. intros Hwf Hin.
  apply andb_true_iff in Hwf as [_ Hall].
  rewrite forallb_forall in Hall.
  apply lookup_column_is_Some in Hin as [s Hs]. rewrite Hs; simpl.
  assert (Hmem : In (c, s) (data df)).
  { clear Hall. induction (data df) as [|[c0 s0] d IH]; simpl in *; [done|].
    destruct (decide (c0 = c)) as [->|]; [left; congruence | right; auto]. }
  apply Hall in Hmem. by apply bool_decide_eq_true in Hmem.
Qed.

(** ** Importing a table that lacks a required column *)

Lemma missing_columns_spec new_leads col :
  col ∈ missing_columns new_leads
  <-> col ∈ required_columns /\ col ∉ columns new_leads.
Proof.
  unfold missing_columns. rewrite list_elem_of_filter. tauto.
Qed.

(** C2: when the imported table lacks at least one of the seven required
    columns, [sync_leads] returns [(False, message)] where the message is
    "Missing required columns: " followed by the absent columns, which are
    exactly the required columns that the table does not have; the manager,
    that is the table in memory and the store with its file, is the one
    before the call: nothing is saved. *)
Theorem sync_leads_missing_columns (self : LeadManager) (new_leads : DataFrame) :
  (exists col, col ∈ required_columns /\ col ∉ columns new_leads) ->
  let absent := filter (fun col => col ∉ columns new_leads) required_columns in
  sync_leads (inr new_leads) self
  = (self, (false, Some ("Missing required columns: " +:+ String.concat ", " absent)))
  /\ (forall col, col ∈ absent <-> col ∈ required_columns /\ col ∉ columns new_leads)
  /\ NoDup absent.
Proof.
  intros [col Hcol] absent.
  assert (Hne : missing_columns new_leads ≠ []).
  { apply missing_columns_spec in Hcol. intros Heq. rewrite Heq in Hcol.
    inversion Hcol. }
  split; [|split].
  - unfold sync_leads, merged_leads. cbn [mbind exn_bind].
    rewrite bool_decide_eq_true_2 by done. reflexivity.
  - intros c. apply missing_columns_spec.
  - apply NoDup_filter. unfold required_columns. compute_done.
Qed.

(** A table that only has a summary column, imported into a fresh manager. *)
Lemma sync_leads_missing_columns_witness :
  let self := init (mkStorage None true 0) in
  let new_leads := mkDataFrame [0%Z] [("summary", [Str "a lead"])] in
  (exists col, col ∈ required_columns /\ col ∉ columns new_leads)
  /\ sync_leads (inr new_leads) self
     = (self, (false, Some "Missing required columns: lowHangingFruit, originalPost, solution, date, url, subreddit")).
Proof.
  intros self new_leads.
  assert (H : exists col, col ∈ required_columns /\ col ∉ columns new_leads).
  { exists "url". split; compute_done. }
  split; [exact H|].
  exact (proj1 (sync_leads_missing_columns self new_leads H)).
Defined.

(** ** [sync_leads] reports every failure in its result *)


(** ** Dictionaries built from two columns *)

Lemma foldl_insert_lookup (l : list (cell * cell)) (m : gmap cell cell) k :
  foldl (fun m kv => <[kv.1 := kv.2]> m) m l !! k
  = match assoc_last k l with Some v => Some v | None => m !! k end.
Proof.
  revert m. induction l as [|[k' v] l IH]; intros m; simpl; [done|].
  rewrite IH. destruct (assoc_last k l); [done|].
  rewrite lookup_insert. destruct (decide (k' = k)); done.
Qed.

Lemma to_dict_lookup keys values k :
  to_dict keys values !! k = assoc_last k (zip keys values).
Proof.
  unfold to_dict. rewrite foldl_insert_lookup, lookup_empty.
  by destruct (assoc_last k (zip keys values)).
Qed.

Lemma assoc_last_absent keys values k :
  k ∉ keys -> assoc_last k (zip keys values) = None.
Proof.
  revert values. induction keys as [|k0 keys IH]; intros values Hk; [done|].
  destruct values as [|v0 values]; [done|]. simpl.
  apply not_elem_of_cons in Hk as [Hne Hk].
  rewrite IH by done. rewrite decide_False; [done | congruence].
Qed.

Lemma assoc_last_at keys values j k :
  length keys = length values ->
  keys !! j = Some k ->
  (forall j', (j < j')%nat -> keys !! j' ≠ Some k) ->
  assoc_last k (zip keys values) = values !! j.
Proof.
  revert values j. induction keys as [|k0 keys IH]; intros values j Hlen Hj Hlast;
    [done|].
  destruct values as [|v0 values]; [done|]. simpl in Hlen.
  destruct j as [|j]; simpl in *.
  - injection Hj as ->.
    rewrite assoc_last_absent.
    + by rewrite decide_True.
    + intros Hin. apply list_elem_of_lookup in Hin as [j' Hj'].
      apply (Hlast (S j')); [lia | done].
  - rewrite (IH values j); [| lia | done |].
    + destruct (values !! j) eqn:Hv; [done|].
      apply lookup_ge_None in Hv. apply lookup_lt_Some in Hj. lia.
    + intros j' Hlt. apply (Hlast (S j')). lia.
Qed.

Lemma where_mask_fmap (f : cell -> bool) (g : cell -> cell) us old i u o :
  us !! i = Some u -> old !! i = Some o ->
  where_mask (f <$> us) (g <$> us) old !! i = Some (if f u then g u else o).
Proof.
  revert old i. induction us as [|u0 us IH]; intros old i Hu Ho; [done|].
  destruct old as [|o0 old]; [done|].
  destruct i as [|i]; simpl in *.
  - by injection Hu as ->; injection Ho as ->.
  - by apply IH.
Qed.

Lemma where_mask_length mask new old :
  length (where_mask mask new old) = length old.
Proof.
  revert new old. induction mask as [|b mask IH]; intros new old; [done|].
  destruct new as [|n new]; [done|]. destruct old as [|o old]; [done|].
  simpl. by rewrite IH.
Qed.

(** ** The imported table before it is merged *)

Lemma clean_column_ok col df :
  col ∈ columns df ->
  clean_column col df
  = inr (setitem col ((fun c => Str (utils.clean_text c)) <$> column col df) df).
Proof.
  intros Hin. unfold clean_column. by rewrite (getitem_column _ _ Hin).
Qed.

Lemma columns_setitem_in c s df :
  c ∈ columns df -> columns (setitem c s df) = columns df.
Proof. intros Hin. rewrite columns_setitem. by rewrite decide_True. Qed.

Lemma columns_setitem_notin c s df :
  c ∉ columns df -> columns (setitem c s df) = columns df ++ [c].
Proof. intros Hin. rewrite columns_setitem. by rewrite decide_False. Qed.

Ltac distinct_names :=
  repeat match goal with
    | |- context [decide (?a = ?b)] =>
        rewrite (decide_False (P := a = b)) by discriminate
    end.

Ltac col_in :=
  first [ assumption | rewrite columns_setitem_in; col_in ].

Lemma clean_columns_ok df :
  (forall c, c ∈ text_columns -> c ∈ columns df) ->
  exists df',
    clean_columns df = inr df'
    /\ index df' = index df
    /\ columns df' = columns df
    /\ forall c, column c df'
         = if decide (c ∈ text_columns)
           then (fun x => Str (utils.clean_text x)) <$> column c df
           else column c df.
Proof.
  intros Hall.
  assert (H1 : "summary" ∈ columns df) by (apply Hall; compute_done).
  assert (H2 : "lowHangingFruit" ∈ columns df) by (apply Hall; compute_done).
  assert (H3 : "originalPost" ∈ columns df) by (apply Hall; compute_done).
  assert (H4 : "solution" ∈ columns df) by (apply Hall; compute_done).
  unfold clean_columns, text_columns. cbn [foldl mbind exn_bind mret exn_ret].
  rewrite (clean_column_ok "summary") by col_in.
  cbn [mbind exn_bind].
  rewrite (clean_column_ok "lowHangingFruit") by col_in.
  cbn [mbind exn_bind].
  rewrite (clean_column_ok "originalPost") by col_in.
  cbn [mbind exn_bind].
  rewrite (clean_column_ok "solution") by col_in.
  eexists. split; [reflexivity|]. split; [reflexivity|]. split.
  - repeat (rewrite columns_setitem_in; [|col_in]). done.
  - intros c. rewrite !column_setitem.
    distinct_names.
    destruct (decide (c = "solution")) as [->|N4]; [by rewrite decide_True by compute_done|].
    destruct (decide (c = "originalPost")) as [->|N3]; [by rewrite decide_True by compute_done|].
    destruct (decide (c = "lowHangingFruit")) as [->|N2]; [by rewrite decide_True by compute_done|].
    destruct (decide (c = "summary")) as [->|N1]; [by rewrite decide_True by compute_done|].
    rewrite decide_False; [done|].
    intros Hin. repeat (apply elem_of_cons in Hin as [?|Hin]; [congruence|]).
    inversion Hin.
Qed.

Lemma missing_columns_nil df c :
  missing_columns df = [] -> c ∈ required_columns -> c ∈ columns df.
Proof.
  intros Hnil Hreq. destruct (decide (c ∈ columns df)) as [|Hnin]; [done|].
  assert (Hin : c ∈ missing_columns df) by (by apply missing_columns_spec).
  rewrite Hnil in Hin. inversion Hin.
Qed.


Lemma ensure_column c v df :
  let df' := if has_column c df then df else setitem_scalar c v df in
  index df' = index df
  /\ columns df' = columns df ++ (if decide (c ∈ columns df) then [] else [c])
  /\ (forall c', c' ≠ c -> column c' df' = column c' df)
  /\ column c df'
     = (if decide (c ∈ columns df) then column c df else replicate (len df) v)
  /\ c ∈ columns df'.
Proof.
  cbv zeta. unfold has_column.
  destruct (decide (c ∈ columns df)) as [Hin|Hnin].
  - rewrite bool_decide_eq_true_2 by done.
    rewrite app_nil_r. by repeat split.
  - rewrite bool_decide_eq_false_2 by done. unfold setitem_scalar.
    split; [done|]. split; [by apply columns_setitem_notin|].
    split; [intros c' Hne; by rewrite column_setitem, decide_False|].
    split; [by rewrite column_setitem, decide_True|].
    rewrite columns_setitem_notin by done. apply elem_of_app. right. by left.
Qed.

(** The table that [sync_leads] has built from the import when it reaches
    the merge. *)
Lemma merged_leads_prepared existing new_leads :
  missing_columns new_leads = [] ->
  exists prepared,
    merged_leads existing (inr new_leads)
    = (if negb (empty existing) then merge_existing existing prepared
       else inr prepared)
    /\ index prepared = index new_leads
    /\ columns prepared
       = columns new_leads
         ++ (if decide ("status" ∈ columns new_leads) then [] else ["status"])
         ++ (if decide ("notes" ∈ columns new_leads) then [] else ["notes"])
    /\ (forall c, c ≠ "status" -> c ≠ "notes" ->
          column c prepared
          = if decide (c ∈ text_columns)
            then (fun x => Str (utils.clean_text x)) <$> column c new_leads
            else column c new_leads)
    /\ column "status" prepared = imported_status new_leads
    /\ column "notes" prepared = imported_notes new_leads
    /\ "status" ∈ columns prepared /\ "notes" ∈ columns prepared.
Proof.
  intros Hmiss.
  destruct (clean_columns_ok new_leads) as (df1 & Hclean & Hix & Hcols & Hcol).
  { intros c Hc. apply missing_columns_nil; [done|].
    unfold text_columns in Hc. unfold required_columns.
    repeat (apply elem_of_cons in Hc as [->|Hc]; [compute_done|]).
    inversion Hc. }
  unfold merged_leads. cbn [mbind exn_bind].
  rewrite bool_decide_eq_false_2 by (by intros []).
  rewrite Hclean. cbn [mbind exn_bind].
  destruct (ensure_column "status" (Str "New") df1)
    as (Hix2 & Hcols2 & Hoth2 & Hst2 & Hin2).
  set (df2 := if has_column "status" df1 then df1
              else setitem_scalar "status" (Str "New") df1) in *.
  destruct (ensure_column "notes" (Str "") df2)
    as (Hix3 & Hcols3 & Hoth3 & Hno3 & Hin3).
  set (df3 := if has_column "notes" df2 then df2
              else setitem_scalar "notes" (Str "") df2) in *.
  rewrite (getitem_column _ _ Hin3). cbn [mbind exn_bind].
  assert (Hlen1 : len df1 = len new_leads) by (unfold len; by rewrite Hix).
  assert (Hlen2 : len df2 = len new_leads) by (unfold len; by rewrite Hix2, Hix).
  assert (Hn2 : "notes" ∈ columns df2 <-> "notes" ∈ columns new_leads).
  { rewrite Hcols2, Hcols, elem_of_app. split; [|by left].
    intros [H|H]; [done|]. destruct (decide ("status" ∈ columns new_leads));
      [inversion H|]. apply list_elem_of_singleton in H. discriminate. }
  eexists. split; [reflexivity|].
  split; [cbn [index setitem]; by rewrite Hix3, Hix2, Hix|].
  split; [|split; [|split; [|split; [|split]]]].
  - rewrite columns_setitem_in by done. rewrite Hcols3.
    destruct (decide ("notes" ∈ columns df2)) as [H|H],
             (decide ("notes" ∈ columns new_leads)) as [H'|H'].
    + by rewrite Hcols2, Hcols, <- app_assoc.
    + by apply Hn2 in H.
    + exfalso. apply H. by apply Hn2.
    + by rewrite Hcols2, Hcols, <- app_assoc.
  - intros c Hs Hn. rewrite column_setitem, decide_False by done.
    rewrite Hoth3, Hoth2 by done. apply Hcol.
  - rewrite column_setitem, decide_False by discriminate.
    rewrite Hoth3 by discriminate. rewrite Hst2. unfold imported_status.
    rewrite Hcols, Hlen1, Hcol.
    by rewrite (decide_False (P := "status" ∈ text_columns)) by compute_done.
  - rewrite column_setitem, decide_True by done. unfold imported_notes.
    rewrite Hno3. do 2 f_equal.
    destruct (decide ("notes" ∈ columns df2)) as [H|H],
             (decide ("notes" ∈ columns new_leads)) as [H'|H'].
    + rewrite Hoth2 by discriminate. rewrite Hcol.
      by rewrite (decide_False (P := "notes" ∈ text_columns)) by compute_done.
    + by apply Hn2 in H.
    + exfalso. apply H. by apply Hn2.
    + by rewrite Hlen2.
  - rewrite columns_setitem_in by done. rewrite Hcols3.
    apply elem_of_app. by left.
  - by rewrite columns_setitem_in.
Qed.

(** ** Reconciling an import with the table in place *)

Lemma merge_existing_ok existing prepared :
  "status" ∈ columns existing -> "url" ∈ columns existing ->
  "notes" ∈ columns existing ->
  "url" ∈ columns prepared -> "status" ∈ columns prepared ->
  "notes" ∈ columns prepared ->
  let existing_status := to_dict (column "url" existing) (column "status" existing) in
  let existing_notes :=
    to_dict (column "url" existing)
            (astype_str (fillna (Str "") (column "notes" existing))) in
  let url := column "url" prepared in
  merge_existing existing prepared
  = inr (setitem "notes"
           (where_mask (isin url existing_notes) (map_dict url existing_notes)
                       (column "notes" prepared))
           (setitem "status"
              (where_mask (isin url existing_status) (map_dict url existing_status)
                          (column "status" prepared))
              prepared)).
Proof.
  intros Hs Hu Hn Hpu Hps Hpn. cbv zeta. unfold merge_existing.
  rewrite !getattr_column by done. cbn [mbind exn_bind].
  unfold loc_setitem.
  rewrite (getitem_column "status" prepared) by done. cbn [mbind exn_bind mret exn_ret].
  rewrite getattr_column by col_in. cbn [mbind exn_bind].
  rewrite getitem_column by col_in. cbn [mbind exn_bind mret exn_ret].
  rewrite !column_setitem. distinct_names. done.
Qed.

Lemma is_leads_table_columns df c :
  is_leads_table df = true -> c ∈ lead_columns -> c ∈ columns df.
Proof.
  unfold is_leads_table. intros H Hc. apply andb_true_iff in H as [_ H].
  rewrite forallb_forall in H. apply has_column_true, H.
  by apply list_elem_of_In.
Qed.

Lemma is_leads_table_wf df : is_leads_table df = true -> wf df = true.
Proof. unfold is_leads_table. intros H. by apply andb_true_iff in H as [? _]. Qed.

Lemma imported_status_length df :
  wf df = true -> length (imported_status df) = len df.
Proof.
  intros Hwf. unfold imported_status.
  destruct (decide ("status" ∈ columns df)).
  - by apply wf_column_length.
  - apply length_replicate.
Qed.

Lemma imported_notes_length df :
  wf df = true -> length (imported_notes df) = len df.
Proof.
  intros Hwf. unfold imported_notes, astype_str, fillna.
  rewrite !length_fmap. destruct (decide ("notes" ∈ columns df)).
  - by apply wf_column_length.
  - apply length_replicate.
Qed.




Lemma sample_import_required c :
  c ∈ required_columns -> c ∈ columns sample_import.
Proof.
  intros Hc. unfold required_columns in Hc.
  repeat (apply elem_of_cons in Hc as [->|Hc]; [compute_done|]).
  inversion Hc.
Qed.


Example sync_leads_sample :
  _leads_df (sync_leads (inr sample_import) sample_manager).1
  = {| index := [0; 1]%Z;
       data := [("summary", [Str "second, revised"; Str "third"]);
                ("lowHangingFruit", [Str "no"; Str ""]);
                ("originalPost", [Str "post two"; Str "post three"]);
                ("solution", [Str "s2"; Str "s3"]);
                ("date", [Str "2024-01-16T11:00:00.000-04:00";
                          Str "2024-02-01T09:00:00.000+05:30"]);
                ("url", [Str "https://reddit.com/r/b/2"; Str "https://reddit.com/r/c/3"]);
                ("subreddit", [Str "b"; Str "c"]);
                ("status", [Str "In Progress"; Str "New"]);
                ("notes", [Str ""; Str ""])] |}.
Proof. vm_compute. reflexivity. Qed.

(** ** Counting by status *)

Lemma value_counts_acc (s : list cell) (m : gmap cell Z) l :
  default 0%Z
    (foldl (fun m c => if isna c then m else <[c := (default 0 (m !! c) + 1)%Z]> m)
           m s !! Str l)
  = (default 0 (m !! Str l) + records_with [l] s)%Z.
Proof.
  unfold records_with. revert m.
  induction s as [|c s IH]; intros m; [simpl; lia|].
  cbn [foldl]. rewrite IH. rewrite filter_cons.
  destruct c as [|x]; cbn [isna status_in].
  - destruct (decide (Is_true false)) as [[]|]. done.
  - destruct (decide (x = l)) as [->|Hne].
    + rewrite lookup_insert_eq.
      rewrite bool_decide_eq_true_2 by (by left).
      destruct (decide (Is_true true)) as [_|[]]; [|done].
      cbn [default length]. unfold id. lia.
    + rewrite lookup_insert_ne by congruence.
      rewrite bool_decide_eq_false_2.
      * destruct (decide (Is_true false)) as [[]|]. done.
      * intros Hin. apply list_elem_of_singleton in Hin. done.
Qed.

Lemma get_count_value_counts s l :
  get_count (value_counts s) l = records_with [l] s.
Proof.
  unfold get_count, value_counts. rewrite value_counts_acc, lookup_empty.
  simpl. lia.
Qed.

Lemma records_with_cons l ls s :
  l ∉ ls ->
  records_with (l :: ls) s = (records_with [l] s + records_with ls s)%Z.
Proof.
  intros Hnin. unfold records_with.
  induction s as [|c s IH]; [done|].
  rewrite !filter_cons.
  destruct c as [|x]; cbn [status_in].
  - destruct (decide (Is_true false)) as [[]|]. exact IH.
  - destruct (decide (x = l)) as [->|Hne].
    + rewrite (bool_decide_eq_true_2 (l ∈ l :: ls)) by (by left).
      rewrite (bool_decide_eq_true_2 (l ∈ [l])) by (by left).
      rewrite (bool_decide_eq_false_2 (l ∈ ls)) by done.
      destruct (decide (Is_true true)) as [_|[]]; [|done].
      destruct (decide (Is_true false)) as [[]|].
      cbn [length]. lia.
    + rewrite (bool_decide_eq_false_2 (x ∈ [l]))
        by (intros H; apply list_elem_of_singleton in H; done).
      destruct (decide (Is_true false)) as [[]|].
      destruct (decide (x ∈ ls)) as [Hin|Hnin'].
      * rewrite (bool_decide_eq_true_2 (x ∈ l :: ls)) by (by right).
        rewrite (bool_decide_eq_true_2 (x ∈ ls)) by done.
        destruct (decide (Is_true true)) as [_|[]]; [|done].
        cbn [length]. lia.
      * rewrite (bool_decide_eq_false_2 (x ∈ l :: ls)).
        -- rewrite (bool_decide_eq_false_2 (x ∈ ls)) by done.
           destruct (decide (Is_true false)) as [[]|]. exact IH.
        -- intros H. apply elem_of_cons in H as [?|?]; done.
Qed.

Lemma records_with_nil s : records_with [] s = 0%Z.
Proof.
  unfold records_with. induction s as [|c s IH]; [done|].
  rewrite filter_cons. destruct c as [|x]; cbn [status_in].
  - destruct (decide (Is_true false)) as [[]|]. exact IH.
  - rewrite bool_decide_eq_false_2 by (intros H; inversion H).
    destruct (decide (Is_true false)) as [[]|]. exact IH.
Qed.

Lemma records_with_nonneg ls s : (0 <= records_with ls s)%Z.
Proof. unfold records_with. lia. Qed.

Lemma records_with_le ls s : (records_with ls s <= Z.of_nat (length s))%Z.
Proof.
  unfold records_with. pose proof (length_filter (fun c => status_in ls c) s). lia.
Qed.

Lemma empty_false_len df : empty df = false -> (0 < Z.of_nat (len df))%Z.
Proof.
  unfold empty, len. intros H. apply orb_false_iff in H as [H _].
  apply bool_decide_eq_false in H. destruct (index df); [done | simpl; lia].
Qed.

(** ** The funnel *)

(** C3: for a table that is not empty, of [n] records, [get_funnel_data]
    returns four entries, for New, In Progress, Contacted and Closed in this
    order; the count of an entry is [n] minus the number of records whose
    status comes strictly before the entry's in this order, and its
    percentage is count / n * 100; hence the first count is [n] and the
    counts do not increase along the order. *)
Theorem get_funnel_data_counts (self : LeadManager) :
  let df := get_leads self in
  let n := Z.of_nat (len df) in
  empty df = false ->
  "status" ∈ columns df ->
  exists e0 e1 e2 e3,
    get_funnel_data self = inr [e0; e1; e2; e3]
    /\ status <$> [e0; e1; e2; e3] = ["New"; "In Progress"; "Contacted"; "Closed"]
    /\ (forall e, e ∈ [e0; e1; e2; e3] ->
          count e = (n - records_with (before (status e) status_order)
                                      (column "status" df))%Z
          /\ percentage e = (inject_Z (count e) / inject_Z n * 100)%Q)
    /\ count e0 = n
    /\ (count e3 <= count e2 <= count e1)%Z /\ (count e1 <= count e0)%Z.
Proof.
  intros df n Hempty Hstatus.
  pose proof (empty_false_len df Hempty) as Hn. fold n in Hn.
  unfold get_funnel_data. fold df. rewrite Hempty.
  rewrite (getitem_column _ _ Hstatus). cbn [mbind exn_bind].
  unfold status_order. cbn [foldl app]. fold n.
  rewrite !get_count_value_counts.
  set (st := column "status" df).
  do 4 eexists. split; [reflexivity|]. split; [reflexivity|].
  assert (Hpct : forall c, percent c n = (inject_Z c / inject_Z n * 100)%Q).
  { intros c. unfold percent. apply Z.ltb_lt in Hn. by rewrite Hn. }
  pose proof (records_with_nonneg ["New"] st).
  pose proof (records_with_nonneg ["In Progress"] st).
  pose proof (records_with_nonneg ["Contacted"] st).
  split; [|split; [reflexivity|cbn [count]; lia]].
  intros e He.
  repeat (apply elem_of_cons in He as [->|He]); [| | | |inversion He];
    cbn [count percentage status before]; distinct_names;
    (split; [|apply Hpct]).
  - rewrite decide_True by done. rewrite records_with_nil. lia.
  - rewrite decide_True by done. lia.
  - rewrite decide_True by done.
    rewrite (records_with_cons "New" ["In Progress"]) by compute_done. lia.
  - rewrite decide_True by done.
    rewrite (records_with_cons "New" ["In Progress"; "Contacted"]) by compute_done.
    rewrite (records_with_cons "In Progress" ["Contacted"]) by compute_done. lia.
Qed.

(** The pipeline of the sample: 6, 3, 1 and 0 leads. *)
Lemma get_funnel_data_counts_witness :
  empty (get_leads sample_pipeline) = false
  /\ "status" ∈ columns (get_leads sample_pipeline)
  /\ exists e0 e1 e2 e3,
       get_funnel_data sample_pipeline = inr [e0; e1; e2; e3]
       /\ count e0 = 6%Z
       /\ (count e3 <= count e2 <= count e1)%Z /\ (count e1 <= count e0)%Z.
Proof.
  assert (H1 : empty (get_leads sample_pipeline) = false) by reflexivity.
  assert (H2 : "status" ∈ columns (get_leads sample_pipeline)) by compute_done.
  split; [exact H1|]. split; [exact H2|].
  destruct (get_funnel_data_counts sample_pipeline H1 H2)
    as (e0 & e1 & e2 & e3 & Hrun & _ & _ & Hfirst & Hmono).
  exists e0, e1, e2, e3. split; [exact Hrun|]. split; [exact Hfirst|exact Hmono].
Defined.

Example get_funnel_data_sample :
  exists l,
    get_funnel_data sample_pipeline = inr l
    /\ (fun e => (status e, count e)) <$> l
       = [("New", 6%Z); ("In Progress", 3%Z); ("Contacted", 1%Z); ("Closed", 0%Z)]
    /\ Forall2 Qeq (percentage <$> l) [100%Q; 50%Q; (50 # 3)%Q; 0%Q].
Proof.
  eexists. split; [vm_compute; reflexivity|]. split; [reflexivity|].
  repeat constructor.
Qed.

(** ** The distribution by status *)





(** ** Statistics on notes *)

Lemma str_len_coerced notes :
  str_len (astype_str (fillna (Str "") notes)) = note_length <$> notes.
Proof.
  unfold str_len, astype_str, fillna. rewrite <- !list_fmap_compose.
  apply list_fmap_ext. by intros i [|s] _.
Qed.

Lemma filter_fmap_length {A B} (f : A -> B) (P : B -> Prop)
    `{!forall y, Decision (P y)} (l : list A) :
  length (filter P (f <$> l)) = length (filter (fun x => P (f x)) l).
Proof.
  induction l as [|x l IH]; [done|].
  rewrite fmap_cons, !filter_cons.
  destruct (decide (P (f x))); simpl; by rewrite IH.
Qed.




(** ** Writing one cell *)

Lemma get_loc_Some_elem idx ix i : get_loc idx ix = Some i -> idx ∈ ix.
Proof.
  revert i. induction ix as [|x ix IH]; intros i; simpl; [done|].
  destruct (decide (x = idx)) as [->|Hne]; [intros _; left|].
  destruct (get_loc idx ix) as [j|] eqn:Hj; simpl; [|done].
  intros _. right. by eapply IH.
Qed.

Lemma get_loc_lookup idx ix i : get_loc idx ix = Some i -> ix !! i = Some idx.
Proof.
  revert i. induction ix as [|x ix IH]; intros i; simpl; [done|].
  destruct (decide (x = idx)) as [->|Hne]; [by intros [= <-]|].
  destruct (get_loc idx ix) as [j|] eqn:Hj; simpl; [|done].
  intros [= <-]. simpl. by apply IH.
Qed.

Lemma at_set_present idx c v df i :
  get_loc idx (index df) = Some i ->
  c ∈ columns df ->
  at_set idx c v df = setitem c (<[i := v]> (column c df)) df.
Proof.
  intros Hloc Hc. unfold at_set.
  assert (Hrows : enlarge_rows idx df = df).
  { unfold enlarge_rows. rewrite decide_True; [done|].
    by eapply get_loc_Some_elem. }
  rewrite Hrows.
  assert (Hcols : enlarge_columns c df = df).
  { unfold enlarge_columns. by rewrite (proj2 (has_column_true c df) Hc). }
  rewrite Hcols, Hloc. unfold column.
  apply lookup_column_is_Some in Hc as [s Hs]. by rewrite Hs.
Qed.

(** C6, as the code has it: [update_lead_status] checks nothing.  For the
    label of a record of the table and any string, one of the four status
    values or not, it writes the string into the status cell of that
    record, leaves the labels, the columns and all other cells as they are,
    and hands the table to [save_progress], which writes the file whenever
    the store is writable.  The function has no failing outcome. *)
Theorem update_lead_status_any_status (self : LeadManager) (idx : Z)
    (status : string) (i : nat) :
  get_loc idx (index (_leads_df self)) = Some i ->
  "status" ∈ columns (_leads_df self) ->
  let df := _leads_df self in
  let self' := update_lead_status idx status self in
  let df' := _leads_df self' in
  index df' = index df
  /\ columns df' = columns df
  /\ column "status" df' = <[i := Str status]> (column "status" df)
  /\ (forall c, c ≠ "status" -> column c df' = column c df)
  /\ storage self' = save_progress df' (storage self)
  /\ (writable (storage self) = true ->
      progress_file (storage self') = Some (to_csv df')
      /\ writes (storage self') = S (writes (storage self))).
Proof.
  intros Hloc Hc df self' df'.
  assert (Hdf' : df' = setitem "status" (<[i := Str status]> (column "status" df)) df).
  { unfold df', self', update_lead_status. cbn [_leads_df].
    by apply at_set_present. }
  split; [by rewrite Hdf'|].
  split; [rewrite Hdf'; by apply columns_setitem_in|].
  split; [by rewrite Hdf', column_setitem, decide_True|].
  split; [intros c Hne; by rewrite Hdf', column_setitem, decide_False|].
  split; [reflexivity|].
  intros Hw. unfold self', update_lead_status. cbn [storage].
  unfold save_progress. rewrite Hw. by split.
Qed.

(** The first lead of the sample is closed. *)
Lemma update_lead_status_any_status_witness :
  let self' := update_lead_status 0 "Closed" sample_pipeline in
  get_loc 0 (index (_leads_df sample_pipeline)) = Some 0%nat
  /\ "status" ∈ columns (_leads_df sample_pipeline)
  /\ column "status" (_leads_df self')
     = [Str "Closed"; Str "In Progress"; Str "New";
        Str "Contacted"; Str "In Progress"; Str "New"]
  /\ writes (storage self') = 1%nat.
Proof.
  intros self'.
  assert (H1 : get_loc 0 (index (_leads_df sample_pipeline)) = Some 0%nat)
    by reflexivity.
  assert (H2 : "status" ∈ columns (_leads_df sample_pipeline)) by compute_done.
  split; [exact H1|]. split; [exact H2|].
  destruct (update_lead_status_any_status sample_pipeline 0 "Closed" 0 H1 H2)
    as (_ & _ & Hst & _ & _ & Hw).
  split; [exact Hst|]. exact (proj2 (Hw eq_refl)).
Defined.

(** C6 as stated fails: a status that is none of the four values is written
    and saved like any other. *)
Lemma update_lead_status_counterexample :
  let self' := update_lead_status 0 "Archived" sample_pipeline in
  ("Archived" ∉ ["New"; "In Progress"; "Contacted"; "Closed"])
  /\ column "status" (_leads_df self')
     = [Str "Archived"; Str "In Progress"; Str "New";
        Str "Contacted"; Str "In Progress"; Str "New"]
  /\ _leads_df self' ≠ _leads_df sample_pipeline
  /\ progress_file (storage self') = Some (to_csv (_leads_df self'))
  /\ writes (storage self') = S (writes (storage sample_pipeline)).
Proof.
  intros self'. split; [compute_done|]. split; [reflexivity|].
  split; [compute_done|]. split; reflexivity.
Qed.

(** ** Appending a note to several leads *)

Lemma get_loc_of_elem idx ix : idx ∈ ix -> exists i, get_loc idx ix = Some i.
Proof.
  induction ix as [|x ix IH]; intros Hin; [inversion Hin|].
  simpl. destruct (decide (x = idx)) as [->|Hne]; [eauto|].
  apply elem_of_cons in Hin as [->|Hin]; [done|].
  destruct (IH Hin) as [i ->]. simpl. eauto.
Qed.

Lemma wf_NoDup_index df : wf df = true -> NoDup (index df).
Proof.
  unfold wf. intros H. apply andb_true_iff in H as [H _].
  apply andb_true_iff in H as [H _]. by apply bool_decide_eq_true in H.
Qed.

Lemma append_notes_ok indices note df clk :
  NoDup (index df) ->
  "notes" ∈ columns df ->
  length (column "notes" df) = length (index df) ->
  NoDup indices ->
  (forall idx, idx ∈ indices -> idx ∈ index df) ->
  exists df' clk',
    append_notes indices note df clk = (df', clk', None)
    /\ index df' = index df
    /\ columns df' = columns df
    /\ column "notes" df' = appended indices note (index df) (column "notes" df)
    /\ (forall c, c ≠ "notes" -> column c df' = column c df)
    /\ datetime.reads clk' = datetime.reads clk
    /\ datetime.time_at clk' = datetime.time_at clk
    /\ datetime.instant clk' = (datetime.instant clk + length indices)%nat.
Proof.
  intros Hnd Hcol Hlen Hndi Hsub.
  revert df clk Hnd Hcol Hlen Hsub.
  induction indices as [|idx indices IH]; intros df clk Hnd Hcol Hlen Hsub.
  - exists df, clk. cbn [append_notes]. repeat split; try done; try lia.
    unfold appended. apply list_eq. intros k.
    rewrite lookup_zip_with.
    destruct (index df !! k) as [x|] eqn:Hx; simpl.
    + by destruct (column "notes" df !! k) eqn:Hc.
    + apply lookup_ge_None in Hx. apply lookup_ge_None. lia.
  - apply NoDup_cons in Hndi as [Hnotin Hndi].
    destruct (get_loc_of_elem idx (index df)) as [i Hloc];
      [apply Hsub; left|].
    cbn [append_notes]. unfold at_get.
    rewrite (getitem_column _ _ Hcol). cbn [mbind exn_bind].
    rewrite Hloc. cbn [mret exn_ret].
    fold (notes_text (default NaN (column "notes" df !! i))).
    rewrite (at_set_present idx "notes" _ df i Hloc Hcol).
    set (v := Str (notes_text (default NaN (column "notes" df !! i)) +:+ note)).
    set (df1 := setitem "notes" (<[i := v]> (column "notes" df)) df).
    assert (Hcol1 : column "notes" df1 = <[i := v]> (column "notes" df))
      by (unfold df1; by rewrite column_setitem, decide_True).
    destruct (IH Hndi df1 (datetime.elapse clk)) as
      (df' & clk' & Hrun & Hix & Hcols & Hnotes & Hother & Hr & Ht & Hi).
    + done.
    + unfold df1. by rewrite columns_setitem_in.
    + rewrite Hcol1, length_insert. done.
    + intros x Hx. apply Hsub. by right.
    + exists df', clk'. split; [exact Hrun|]. split; [by rewrite Hix|].
      split; [rewrite Hcols; unfold df1; by rewrite columns_setitem_in|].
      split; [|split; [|split; [done|split; [done|]]]].
      * rewrite Hnotes, Hcol1. cbn [index df1 setitem].
        unfold appended. apply list_eq. intros k.
        rewrite !lookup_zip_with.
        destruct (index df !! k) as [x|] eqn:Hx; simpl; [|done].
        pose proof (get_loc_lookup _ _ _ Hloc) as Hi'.
        destruct (decide (k = i)) as [->|Hne].
        -- assert (x = idx) by congruence. subst x.
           assert (Hlt : (i < length (column "notes" df))%nat)
             by (rewrite Hlen; by eapply lookup_lt_Some).
           rewrite list_lookup_insert_eq by done.
           destruct (column "notes" df !! i) as [c|] eqn:Hc;
             [|apply lookup_ge_None in Hc; lia].
           unfold v. rewrite ?Hc. simpl.
           rewrite decide_False by done.
           by rewrite decide_True by (by left).
        -- rewrite list_lookup_insert_ne by done.
           destruct (column "notes" df !! k) eqn:Hc; simpl; [|done].
           assert (x ≠ idx).
           { intros ->. apply Hne. by eapply NoDup_lookup. }
           destruct (decide (x ∈ indices)) as [Hin|Hnin].
           ++ by rewrite decide_True by (by right).
           ++ rewrite decide_False; [done|].
              intros H'. apply elem_of_cons in H' as [?|?]; done.
      * intros c Hc. rewrite Hother by done. unfold df1.
        by rewrite column_setitem, decide_False.
      * rewrite Hi. cbn [datetime.elapse datetime.instant length]. lia.
Qed.




Example bulk_append_notes_sample :
  let out := bulk_append_notes [0; 3]%Z "called" sample_pipeline sample_clock in
  let nl := String utils.newline "" in
  column "notes" (_leads_df out.1.1)
  = [Str ("abcd" +:+ nl +:+ "[2024-03-09 10:59] called"); Str ""; NaN;
     Str ("ab" +:+ nl +:+ "[2024-03-09 10:59] called"); Str ""; Str ""]
  /\ datetime.time_at out.1.2 (datetime.instant out.1.2)
     = datetime.mkDatetime 2024 3 9 11 0 0.
Proof. vm_compute. split; reflexivity. Qed.

(** ** Formatting a date *)

Lemma digit_of_digit_char z :
  (0 <= z <= 9)%Z -> datetime.digit_of (digit_char z) = Some z.
Proof.
  intros Hz.
  assert (H : (z = 0 \/ z = 1 \/ z = 2 \/ z = 3 \/ z = 4 \/ z = 5 \/ z = 6
               \/ z = 7 \/ z = 8 \/ z = 9)%Z) by lia.
  repeat (destruct H as [->|H]; [reflexivity|]). by subst.
Qed.

Lemma between_true lo hi x :
  datetime.between lo hi x = true <-> (lo <= x <= hi)%Z.
Proof.
  unfold datetime.between. rewrite andb_true_iff, !Z.leb_le. tauto.
Qed.

Lemma between_false lo hi x :
  datetime.between lo hi x = false <-> ~ (lo <= x <= hi)%Z.
Proof.
  rewrite <- between_true. by destruct (datetime.between lo hi x).
Qed.

Ltac div_lia := Z.to_euclidean_division_equations; lia.

Lemma two_digits_two_chars p1 p2 v r :
  (0 <= v <= 99)%Z ->
  datetime.two_digits p1 p2 (two_chars v ++ r)
  = if p1 (v / 10)%Z && p2 (v mod 10)%Z then Some (v, r) else None.
Proof.
  intros Hv. unfold two_chars. cbn [app datetime.two_digits].
  rewrite !digit_of_digit_char by div_lia.
  replace (10 * (v / 10) + v mod 10)%Z with v by div_lia. done.
Qed.

Lemma four_digits_four_chars y r :
  (0 <= y <= 9999)%Z ->
  datetime.four_digits (four_chars y ++ r) = Some (y, r).
Proof.
  intros Hy. unfold four_chars. cbn [app datetime.four_digits].
  rewrite !digit_of_digit_char by div_lia.
  do 2 f_equal. div_lia.
Qed.

Lemma directive_first c g alts items s v r vs rest :
  g s = Some (v, r) ->
  datetime.regex_match items r = Some (vs, rest) ->
  datetime.regex_match (datetime.Directive c (g :: alts) :: items) s
  = Some ((c, v) :: vs, rest).
Proof. intros Hg Hr. cbn [datetime.regex_match]. by rewrite Hg, Hr. Qed.

Lemma directive_skip c g alts items s :
  g s = None ->
  datetime.regex_match (datetime.Directive c (g :: alts) :: items) s
  = datetime.regex_match (datetime.Directive c alts :: items) s.
Proof. intros Hg. cbn [datetime.regex_match]. by rewrite Hg. Qed.

Ltac holds := rewrite (proj2 (between_true _ _ _)) by div_lia.
Ltac fails := rewrite (proj2 (between_false _ _ _)) by div_lia.

Section Directives.

Variables (items : list datetime.item) (r : list ascii)
          (vs : list (ascii * Z)) (rest : list ascii).
Hypothesis Hrest : datetime.regex_match items r = Some (vs, rest).

Lemma match_year y alts :
  (0 <= y <= 9999)%Z ->
  datetime.directive "Y" = Some alts ->
  datetime.regex_match (datetime.Directive "Y" alts :: items) (four_chars y ++ r)
  = Some (("Y"%char, y) :: vs, rest).
Proof.
  intros Hy [= <-]. apply directive_first with r; [|done].
  by apply four_digits_four_chars.
Qed.

Lemma match_month m alts :
  (1 <= m <= 12)%Z ->
  datetime.directive "m" = Some alts ->
  datetime.regex_match (datetime.Directive "m" alts :: items) (two_chars m ++ r)
  = Some (("m"%char, m) :: vs, rest).
Proof.
  intros Hm [= <-]. destruct (decide (m < 10)%Z).
  - rewrite directive_skip
      by (rewrite two_digits_two_chars by lia; by fails).
    apply directive_first with r; [|done].
    rewrite two_digits_two_chars by lia. by do 2 holds.
  - apply directive_first with r; [|done].
    rewrite two_digits_two_chars by lia. by do 2 holds.
Qed.

Lemma match_day d alts :
  (1 <= d <= 31)%Z ->
  datetime.directive "d" = Some alts ->
  datetime.regex_match (datetime.Directive "d" alts :: items) (two_chars d ++ r)
  = Some (("d"%char, d) :: vs, rest).
Proof.
  intros Hd [= <-].
  destruct (decide (d < 10)%Z); [|destruct (decide (d < 30)%Z)].
  - rewrite directive_skip
      by (rewrite two_digits_two_chars by lia; by fails).
    rewrite directive_skip
      by (rewrite two_digits_two_chars by lia; by fails).
    apply directive_first with r; [|done].
    rewrite two_digits_two_chars by lia. by do 2 holds.
  - rewrite directive_skip
      by (rewrite two_digits_two_chars by lia; by fails).
    apply directive_first with r; [|done].
    rewrite two_digits_two_chars by lia. by holds.
  - apply directive_first with r; [|done].
    rewrite two_digits_two_chars by lia. by do 2 holds.
Qed.

Lemma match_hour h alts :
  (0 <= h <= 23)%Z ->
  datetime.directive "H" = Some alts ->
  datetime.regex_match (datetime.Directive "H" alts :: items) (two_chars h ++ r)
  = Some (("H"%char, h) :: vs, rest).
Proof.
  intros Hh [= <-]. destruct (decide (h < 20)%Z).
  - rewrite directive_skip
      by (rewrite two_digits_two_chars by lia; by fails).
    apply directive_first with r; [|done].
    rewrite two_digits_two_chars by lia. by holds.
  - apply directive_first with r; [|done].
    rewrite two_digits_two_chars by lia. by do 2 holds.
Qed.

Lemma match_minute mi alts :
  (0 <= mi <= 59)%Z ->
  datetime.directive "M" = Some alts ->
  datetime.regex_match (datetime.Directive "M" alts :: items) (two_chars mi ++ r)
  = Some (("M"%char, mi) :: vs, rest).
Proof.
  intros Hmi [= <-]. apply directive_first with r; [|done].
  rewrite two_digits_two_chars by lia. by holds.
Qed.

Lemma match_second s alts :
  (0 <= s <= 59)%Z ->
  datetime.directive "S" = Some alts ->
  datetime.regex_match (datetime.Directive "S" alts :: items) (two_chars s ++ r)
  = Some (("S"%char, s) :: vs, rest).
Proof.
  intros Hs [= <-].
  rewrite directive_skip
    by (rewrite two_digits_two_chars by lia; by fails).
  apply directive_first with r; [|done].
  rewrite two_digits_two_chars by lia. by holds.
Qed.

Lemma match_literal a c :
  datetime.eq_ignore_case a c = true ->
  datetime.regex_match (datetime.Literal a :: items) (c :: r) = Some (vs, rest).
Proof. intros H. cbn [datetime.regex_match]. by rewrite H. Qed.

End Directives.

Lemma compile_iso_format :
  exists aY am ad aH aM aS,
    datetime.directive "Y" = Some aY /\ datetime.directive "m" = Some am
    /\ datetime.directive "d" = Some ad /\ datetime.directive "H" = Some aH
    /\ datetime.directive "M" = Some aM /\ datetime.directive "S" = Some aS
    /\ datetime.compile_format
         (list_ascii_of_string "%Y-%m-%dT%H:%M:%S.000-04:00")
       = Some [datetime.Directive "Y" aY; datetime.Literal "-";
               datetime.Directive "m" am; datetime.Literal "-";
               datetime.Directive "d" ad; datetime.Literal "T";
               datetime.Directive "H" aH; datetime.Literal ":";
               datetime.Directive "M" aM; datetime.Literal ":";
               datetime.Directive "S" aS; datetime.Literal ".";
               datetime.Literal "0"; datetime.Literal "0"; datetime.Literal "0";
               datetime.Literal "-"; datetime.Literal "0"; datetime.Literal "4";
               datetime.Literal ":"; datetime.Literal "0"; datetime.Literal "0"].
Proof. do 6 eexists. repeat (split; [reflexivity|]). reflexivity. Qed.








(** ** Saving the table and loading it again *)










(** ** The tables a manager holds are tables of leads *)

Example fresh_manager_leads_table :
  is_leads_table (_leads_df fresh_manager) = true
  /\ len (_leads_df fresh_manager) = 0%nat.
Proof. split; reflexivity. Qed.

Example sync_leads_sample_leads_table :
  is_leads_table (_leads_df (sync_leads (inr sample_import) sample_manager).1)
  = true.
Proof. vm_compute. reflexivity. Qed.

(** An import that brings a status column: the lead known by its url still
    takes the status of the table in place, the other one keeps the status
    of the import. *)
Example sync_leads_import_with_status :
  column "status"
    (_leads_df (sync_leads (inr (setitem "status" [Str "Closed"; Str "Contacted"]
                                         sample_import))
                           sample_manager).1)
  = [Str "In Progress"; Str "Contacted"].
Proof. vm_compute. reflexivity. Qed.

(** * Further properties of the code *)

(** ** [clean_text] *)

Lemma runs_ge ch cur l : (cur <= runs ch cur l)%nat.
Proof.
  revert cur. induction l as [|c l IH]; intros cur; simpl; [lia|].
  destruct (decide (c = ch)); [|lia].
  pose proof (IH (S cur)). lia.
Qed.

Lemma runs_mono ch cur cur' l :
  (cur <= cur')%nat -> (runs ch cur l <= runs ch cur' l)%nat.
Proof.
  revert cur cur'. induction l as [|c l IH]; intros cur cur' Hle; simpl; [lia|].
  destruct (decide (c = ch)); [apply IH; lia | lia].
Qed.

Lemma runs_replicate_app ch cur j l :
  runs ch cur (replicate j ch ++ l) = runs ch (cur + j) l.
Proof.
  revert cur. induction j as [|j IH]; intros cur; simpl.
  - by rewrite Nat.add_0_r.
  - rewrite decide_True by done. rewrite IH. f_equal. lia.
Qed.

Lemma runs_suffix ch cur l1 l2 :
  (runs ch 0 l2 <= runs ch cur (l1 ++ l2))%nat.
Proof.
  revert cur. induction l1 as [|c l1 IH]; intros cur; simpl.
  - apply runs_mono. lia.
  - destruct (decide (c = ch)); [apply IH|].
    pose proof (IH 0%nat). lia.
Qed.

Lemma runs_prefix ch cur l1 l2 :
  (runs ch cur l1 <= runs ch cur (l1 ++ l2))%nat.
Proof.
  revert cur. induction l1 as [|c l1 IH]; intros cur; simpl.
  - apply runs_ge.
  - destruct (decide (c = ch)); [apply IH|].
    pose proof (IH 0%nat). lia.
Qed.

Lemma flush_run_cap ch m run :
  utils.flush_run ch (S m) (replicate m ch) run = replicate (Nat.min run m) ch.
Proof.
  unfold utils.flush_run. destruct (S m <=? run)%nat eqn:H.
  - apply Nat.leb_le in H. f_equal. lia.
  - apply Nat.leb_gt in H. f_equal. lia.
Qed.

(** After the substitution no run of [ch] is longer than [m]. *)
Lemma sub_runs_capped ch m run s :
  (runs ch 0 (utils.sub_runs ch (S m) (replicate m ch) run s) <= m)%nat.
Proof.
  revert run. induction s as [|c s IH]; intros run; cbn [utils.sub_runs].
  - rewrite flush_run_cap. rewrite <- (app_nil_r (replicate _ _)).
    rewrite runs_replicate_app. simpl. lia.
  - destruct (decide (c = ch)) as [->|Hne]; [apply IH|].
    rewrite flush_run_cap, runs_replicate_app. simpl.
    rewrite decide_False by done. pose proof (IH 0%nat). lia.
Qed.

(** A text whose runs of [ch] are short enough is left as it is. *)
Lemma sub_runs_id ch m run s :
  (runs ch run s <= m)%nat ->
  utils.sub_runs ch (S m) (replicate m ch) run s = replicate run ch ++ s.
Proof.
  revert run. induction s as [|c s IH]; intros run Hle; cbn [utils.sub_runs].
  - simpl in Hle. rewrite flush_run_cap, app_nil_r. f_equal. lia.
  - simpl in Hle. destruct (decide (c = ch)) as [->|Hne].
    + rewrite IH by done. rewrite replicate_S_end, <- app_assoc. done.
    + pose proof (runs_ge ch 0 s).
      rewrite flush_run_cap. rewrite IH by lia. simpl.
      do 2 f_equal. lia.
Qed.

Lemma runs_other_replicate ch ch' j cur l :
  ch' ≠ ch -> (1 <= j)%nat ->
  runs ch' cur (replicate j ch ++ l) = Nat.max cur (runs ch' 0 l).
Proof.
  intros Hne Hj. destruct j as [|j]; [lia|]. simpl.
  rewrite decide_False by congruence. f_equal. clear Hj.
  induction j as [|j IH]; [done|]. simpl.
  rewrite decide_False by congruence. by rewrite IH.
Qed.

(** Collapsing spaces does not lengthen the runs of another character. *)
Lemma sub_runs_other ch ch' m s :
  ch' ≠ ch -> (1 <= m)%nat ->
  (forall cur, (runs ch' cur (utils.sub_runs ch (S m) (replicate m ch) 0 s)
                <= runs ch' cur s)%nat)
  /\ (forall run cur, (1 <= run)%nat ->
        (runs ch' cur (utils.sub_runs ch (S m) (replicate m ch) run s)
         <= Nat.max cur (runs ch' 0 s))%nat).
Proof.
  intros Hne Hm. induction s as [|c s [IHA IHB]]; cbn [utils.sub_runs].
  - split.
    + intros cur. rewrite flush_run_cap. simpl. lia.
    + intros run cur Hrun. rewrite flush_run_cap.
      rewrite <- (app_nil_r (replicate _ _)).
      rewrite runs_other_replicate by (done || lia). simpl. lia.
  - split.
    + intros cur. destruct (decide (c = ch)) as [->|Hc].
      * simpl. rewrite decide_False by congruence. apply IHB. lia.
      * rewrite flush_run_cap. simpl.
        destruct (decide (c = ch')); [apply IHA|].
        pose proof (IHA 0%nat). lia.
    + intros run cur Hrun. destruct (decide (c = ch)) as [->|Hc].
      * simpl. rewrite decide_False by congruence.
        pose proof (IHB (S run) cur). lia.
      * rewrite flush_run_cap, runs_other_replicate by (done || lia). simpl.
        destruct (decide (c = ch')).
        -- pose proof (IHA 1%nat). pose proof (runs_mono ch' 0 1 s). lia.
        -- pose proof (IHA 0%nat). lia.
Qed.

Lemma lstrip_suffix s :
  exists pre, s = pre ++ utils.lstrip s /\ Forall (fun c => utils.is_space c = true) pre.
Proof.
  induction s as [|c s (pre & Heq & Hpre)]; [by exists []|].
  simpl. destruct (utils.is_space c) eqn:Hc.
  - exists (c :: pre). split; [simpl; by f_equal | by constructor].
  - by exists [].
Qed.

Lemma lstrip_head s c :
  head (utils.lstrip s) = Some c -> utils.is_space c = false.
Proof.
  induction s as [|a s IH]; [done|]. simpl.
  destruct (utils.is_space a) eqn:Ha; [done|].
  simpl. by intros [= <-].
Qed.

Lemma lstrip_id s :
  (forall c, head s = Some c -> utils.is_space c = false) -> utils.lstrip s = s.
Proof.
  destruct s as [|a s]; [done|]. intros H. simpl. by rewrite (H a).
Qed.

(** [strip] cuts white space off both ends and nothing else. *)
Lemma strip_middle s :
  exists pre post,
    s = pre ++ utils.strip s ++ post
    /\ Forall (fun c => utils.is_space c = true) pre
    /\ Forall (fun c => utils.is_space c = true) post.
Proof.
  destruct (lstrip_suffix s) as (pre & Hs & Hpre).
  destruct (lstrip_suffix (rev (utils.lstrip s))) as (post & Hr & Hpost).
  exists pre, (rev post). split; [|split; [done|]].
  - unfold utils.strip. rewrite Hs at 1. f_equal.
    rewrite <- (rev_involutive (utils.lstrip s)) at 1.
    rewrite Hr at 1. by rewrite rev_app_distr.
  - apply Forall_forall. intros c Hc. rewrite Forall_forall in Hpost.
    apply Hpost. apply list_elem_of_In. apply list_elem_of_In in Hc.
    by apply in_rev.
Qed.

Lemma rev_reverse (l : list ascii) : rev l = reverse l.
Proof. unfold reverse. apply rev_alt. Qed.

Lemma strip_last s c :
  last (utils.strip s) = Some c -> utils.is_space c = false.
Proof.
  unfold utils.strip. rewrite rev_reverse, last_reverse. apply lstrip_head.
Qed.

Lemma strip_head s c :
  head (utils.strip s) = Some c -> utils.is_space c = false.
Proof.
  intros Hc.
  destruct (lstrip_suffix (rev (utils.lstrip s))) as (post & Hr & _).
  assert (Hl : utils.lstrip s = utils.strip s ++ rev post).
  { unfold utils.strip. rewrite <- (rev_involutive (utils.lstrip s)) at 1.
    rewrite Hr at 1. by rewrite rev_app_distr. }
  apply (lstrip_head s). rewrite Hl.
  destruct (utils.strip s); [done|]. exact Hc.
Qed.

Lemma strip_id s :
  (forall c, head s = Some c -> utils.is_space c = false) ->
  (forall c, last s = Some c -> utils.is_space c = false) ->
  utils.strip s = s.
Proof.
  intros Hh Hl. unfold utils.strip. rewrite (lstrip_id s) by done.
  rewrite lstrip_id; [apply rev_involutive|].
  intros c Hc. apply Hl. by rewrite <- head_reverse, <- rev_reverse.
Qed.

Lemma newline_not_space : utils.newline ≠ " "%char.
Proof. discriminate. Qed.

Lemma runs_middle ch pre mid post :
  (runs ch 0 mid <= runs ch 0 (pre ++ mid ++ post))%nat.
Proof.
  pose proof (runs_suffix ch 0 pre (mid ++ post)).
  pose proof (runs_prefix ch 0 mid post). lia.
Qed.

(** The text that the three steps of [clean_text] make of a text. *)
Lemma clean_text_chars text :
  list_ascii_of_string (utils.clean_text (Str text))
  = utils.strip
      (utils.sub_runs " "%char 2 (replicate 1 " "%char) 0
         (utils.sub_runs utils.newline 3 (replicate 2 utils.newline) 0
            (list_ascii_of_string text))).
Proof. cbn [utils.clean_text]. apply list_ascii_of_string_of_list_ascii. Qed.

Lemma clean_text_chars_shape (text : cell) :
  let cleaned := list_ascii_of_string (utils.clean_text text) in
  (longest_run utils.newline cleaned <= 2)%nat
  /\ (longest_run " "%char cleaned <= 1)%nat
  /\ (forall c, head cleaned = Some c -> utils.is_space c = false)
  /\ (forall c, last cleaned = Some c -> utils.is_space c = false).
Proof.
  destruct text as [|text].
  { cbn. repeat split; (lia || discriminate). }
  cbv zeta. rewrite clean_text_chars.
  set (t1 := utils.sub_runs utils.newline 3 _ 0 _).
  set (t2 := utils.sub_runs " "%char 2 _ 0 t1).
  destruct (strip_middle t2) as (pre & post & Ht2 & _ & _).
  unfold longest_run. split; [|split; [|split]].
  - pose proof (runs_middle utils.newline pre (utils.strip t2) post) as H1.
    rewrite <- Ht2 in H1.
    pose proof (proj1 (sub_runs_other " "%char utils.newline 1 t1
                         newline_not_space (le_n 1)) 0%nat) as H2.
    pose proof (sub_runs_capped utils.newline 2 0
                  (list_ascii_of_string text)) as H3.
    fold t1 in H3. fold t2 in H2. lia.
  - pose proof (runs_middle " "%char pre (utils.strip t2) post) as H1.
    rewrite <- Ht2 in H1.
    pose proof (sub_runs_capped " "%char 1 0 t1) as H2.
    fold t2 in H2. lia.
  - apply strip_head.
  - apply strip_last.
Qed.

(** X1: the text that [clean_text] returns has no three newlines in a row,
    no two spaces in a row, and neither starts nor ends with white space. *)
Theorem clean_text_shape (text : cell) :
  let cleaned := list_ascii_of_string (utils.clean_text text) in
  (longest_run utils.newline cleaned <= 2)%nat
  /\ (longest_run " "%char cleaned <= 1)%nat
  /\ (forall c, head cleaned = Some c -> utils.is_space c = false)
  /\ (forall c, last cleaned = Some c -> utils.is_space c = false).
Proof. apply clean_text_chars_shape. Qed.

(** A text of that shape is left as it is. *)
Lemma clean_text_fixed (l : list ascii) :
  (longest_run utils.newline l <= 2)%nat ->
  (longest_run " "%char l <= 1)%nat ->
  (forall c, head l = Some c -> utils.is_space c = false) ->
  (forall c, last l = Some c -> utils.is_space c = false) ->
  utils.clean_text (Str (string_of_list_ascii l)) = string_of_list_ascii l.
Proof.
  intros Hn Hs Hh Hl. cbn [utils.clean_text].
  rewrite list_ascii_of_string_of_list_ascii.
  change [utils.newline; utils.newline] with (replicate 2 utils.newline).
  rewrite (sub_runs_id utils.newline 2 0 l) by done. cbn [replicate app].
  change [" "%char] with (replicate 1 " "%char).
  rewrite (sub_runs_id " "%char 1 0 l) by done. cbn [replicate app].
  by rewrite strip_id.
Qed.

(** X2: cleaning a text that has been cleaned changes nothing:
    [clean_text] is idempotent. *)
Theorem clean_text_idempotent (text : cell) :
  utils.clean_text (Str (utils.clean_text text)) = utils.clean_text text.
Proof.
  destruct (clean_text_chars_shape text) as (Hn & Hs & Hh & Hl).
  rewrite <- (string_of_list_ascii_of_string (utils.clean_text text)).
  by apply clean_text_fixed.
Qed.







Example clean_text_sample :
  utils.clean_text
    (Str ("  a   b" +:+ String utils.newline (String utils.newline
           (String utils.newline (String utils.newline "c  ")))))
  = "a b" +:+ String utils.newline (String utils.newline "c").
Proof. vm_compute. reflexivity. Qed.

(** ** [format_date] on dates that do not exist *)

(** What [strptime] does with a text of the ISO form and the offset -04:00:
    the fields are read, and the date is built from them. *)
Lemma strptime_iso_string y m d h mi s :
  (0 <= y <= 9999)%Z -> (1 <= m <= 12)%Z -> (1 <= d <= 31)%Z ->
  (0 <= h <= 23)%Z -> (0 <= mi <= 59)%Z -> (0 <= s <= 59)%Z ->
  datetime.strptime (iso_string y m d h mi s "-04:00")
                    "%Y-%m-%dT%H:%M:%S.000-04:00"
  = datetime.make y m d h mi s.
Proof.
  intros Hy Hm Hd Hh Hmi Hs.
  destruct compile_iso_format as
    (aY & am & ad & aH & aM & aS & HY & Hmo & Hda & HH & HM & HS & Hfmt).
  unfold datetime.strptime. rewrite Hfmt.
  unfold iso_string. rewrite list_ascii_of_string_of_list_ascii.
  match goal with
  | |- context [datetime.regex_match ?items ?chars] =>
      assert (Hmatch : datetime.regex_match items chars
                       = Some ([("Y"%char, y); ("m"%char, m); ("d"%char, d);
                                ("H"%char, h); ("M"%char, mi); ("S"%char, s)], []))
  end.
  { apply match_year; [|lia|done].
    apply match_literal; [|done].
    apply match_month; [|lia|done].
    apply match_literal; [|done].
    apply match_day; [|lia|done].
    apply match_literal; [|done].
    apply match_hour; [|lia|done].
    apply match_literal; [|done].
    apply match_minute; [|lia|done].
    apply match_literal; [|done].
    apply match_second; [|lia|done].
    reflexivity. }
  rewrite Hmatch. reflexivity.
Qed.

(** X4: a text of the right form, with the offset -04:00, that names a day
    which does not exist, the 30th of February or a day of the year 0000,
    is not an error for [format_date]: the text is returned as it is. *)
Theorem format_date_no_such_day (y m d h mi s : Z) :
  (0 <= y <= 9999)%Z -> (1 <= m <= 12)%Z -> (1 <= d <= 31)%Z ->
  (0 <= h <= 23)%Z -> (0 <= mi <= 59)%Z -> (0 <= s <= 59)%Z ->
  (y = 0 \/ datetime.days_in_month y m < d)%Z ->
  utils.format_date (iso_string y m d h mi s "-04:00")
  = iso_string y m d h mi s "-04:00".
Proof.
  intros Hy Hm Hd Hh Hmi Hs Hbad. unfold utils.format_date.
  rewrite strptime_iso_string by done. unfold datetime.make.
  destruct (datetime.between 1 9999 y) eqn:Hyb; [|done]. cbn [negb].
  apply between_true in Hyb.
  rewrite (proj2 (between_true 1 12 m)) by done. cbn [negb].
  rewrite (proj2 (between_false 1 (datetime.days_in_month y m) d)) by lia.
  done.
Qed.

Lemma format_date_no_such_day_witness :
  utils.format_date "2023-02-30T10:30:00.000-04:00"
  = "2023-02-30T10:30:00.000-04:00".
Proof.
  assert (H1 : (0 <= 2023 <= 9999)%Z) by lia.
  assert (H2 : (1 <= 2 <= 12)%Z) by lia.
  assert (H3 : (1 <= 30 <= 31)%Z) by lia.
  assert (H4 : (0 <= 10 <= 23)%Z) by lia.
  assert (H5 : (0 <= 30 <= 59)%Z) by lia.
  assert (H6 : (0 <= 0 <= 59)%Z) by lia.
  assert (H7 : (2023 = 0 \/ datetime.days_in_month 2023 2 < 30)%Z)
    by (right; vm_compute; reflexivity).
  exact (format_date_no_such_day 2023 2 30 10 30 0 H1 H2 H3 H4 H5 H6 H7).
Defined.

(** ** More on [sync_leads] *)

Lemma clean_columns_cleaned_table df :
  (forall c, c ∈ text_columns -> c ∈ columns df) ->
  clean_columns df = inr (cleaned_table df).
Proof.
  intros Hall.
  assert (H1 : "summary" ∈ columns df) by (apply Hall; compute_done).
  assert (H2 : "lowHangingFruit" ∈ columns df) by (apply Hall; compute_done).
  assert (H3 : "originalPost" ∈ columns df) by (apply Hall; compute_done).
  assert (H4 : "solution" ∈ columns df) by (apply Hall; compute_done).
  unfold clean_columns, cleaned_table, text_columns.
  cbn [foldl mbind exn_bind mret exn_ret].
  rewrite (clean_column_ok "summary") by col_in.
  cbn [mbind exn_bind].
  rewrite (clean_column_ok "lowHangingFruit") by col_in.
  cbn [mbind exn_bind].
  rewrite (clean_column_ok "originalPost") by col_in.
  cbn [mbind exn_bind].
  by rewrite (clean_column_ok "solution") by col_in.
Qed.

Lemma required_text_columns df :
  missing_columns df = [] -> forall c, c ∈ text_columns -> c ∈ columns df.
Proof.
  intros Hmiss c Hc. apply missing_columns_nil; [done|].
  unfold text_columns in Hc. unfold required_columns.
  repeat (apply elem_of_cons in Hc as [->|Hc]; [compute_done|]).
  inversion Hc.
Qed.

(** What the [try] of [sync_leads] computes for an import that has the
    required columns. *)
Lemma merged_leads_run existing new_leads :
  missing_columns new_leads = [] ->
  merged_leads existing (inr new_leads)
  = (if negb (empty existing)
     then merge_existing existing (prepared_table new_leads)
     else inr (prepared_table new_leads)).
Proof.
  intros Hmiss. unfold merged_leads. cbn [mbind exn_bind].
  rewrite bool_decide_eq_false_2 by (by intros []).
  rewrite (clean_columns_cleaned_table _ (required_text_columns _ Hmiss)).
  cbn [mbind exn_bind].
  destruct (ensure_column "status" (Str "New") (cleaned_table new_leads))
    as (_ & _ & _ & _ & Hin2).
  set (df2 := if has_column "status" (cleaned_table new_leads)
              then cleaned_table new_leads
              else setitem_scalar "status" (Str "New") (cleaned_table new_leads))
    in *.
  destruct (ensure_column "notes" (Str "") df2) as (_ & _ & _ & _ & Hin3).
  set (df3 := if has_column "notes" df2 then df2
              else setitem_scalar "notes" (Str "") df2) in *.
  rewrite (getitem_column _ _ Hin3). cbn [mbind exn_bind].
  reflexivity.
Qed.

(** The table described by [merged_leads_prepared] is [prepared_table]. *)
Lemma prepared_table_spec new_leads :
  missing_columns new_leads = [] ->
  index (prepared_table new_leads) = index new_leads
  /\ columns (prepared_table new_leads)
     = columns new_leads
       ++ (if decide ("status" ∈ columns new_leads) then [] else ["status"])
       ++ (if decide ("notes" ∈ columns new_leads) then [] else ["notes"])
  /\ (forall c, c ≠ "status" -> c ≠ "notes" ->
        column c (prepared_table new_leads)
        = if decide (c ∈ text_columns)
          then (fun x => Str (utils.clean_text x)) <$> column c new_leads
          else column c new_leads)
  /\ column "status" (prepared_table new_leads) = imported_status new_leads
  /\ column "notes" (prepared_table new_leads) = imported_notes new_leads
  /\ "status" ∈ columns (prepared_table new_leads)
  /\ "notes" ∈ columns (prepared_table new_leads).
Proof.
  intros Hmiss.
  destruct (merged_leads_prepared (new_frame []) new_leads Hmiss)
    as (P & Hrun & Hrest).
  rewrite (merged_leads_run _ _ Hmiss) in Hrun. cbn in Hrun.
  injection Hrun as ->. exact Hrest.
Qed.

Lemma getattr_missing c df :
  c ∉ columns df ->
  getattr c df
  = inl (AttributeError ("'DataFrame' object has no attribute '" +:+ c +:+ "'")).
Proof.
  intros Hnin. unfold getattr.
  by rewrite (proj2 (lookup_column_None c (data df)) Hnin).
Qed.

(** X5: when the table in place has records but lacks the status, url or
    notes column (a progress file edited by hand), a valid import fails in
    the merge: [sync_leads] returns [False] with the message of the
    [AttributeError] for the first of these columns that is missing, behind
    "Error processing CSV file: ", and the manager is left as it was. *)
Theorem sync_leads_table_without_column (self : LeadManager)
    (imported : DataFrame) (c : string) :
  empty (_leads_df self) = false ->
  (forall col, col ∈ required_columns -> col ∈ columns imported) ->
  first_missing_attribute (_leads_df self) = Some c ->
  sync_leads (inr imported) self
  = (self, (false, Some ("Error processing CSV file: "
                         +:+ "'DataFrame' object has no attribute '" +:+ c +:+ "'"))).
Proof.
  intros Hempty Hreq Hfirst.
  assert (Hmiss : missing_columns imported = []).
  { destruct (missing_columns imported) as [|x l] eqn:Hm; [done|].
    assert (Hx : x ∈ missing_columns imported) by (rewrite Hm; left).
    apply missing_columns_spec in Hx as [Hx1 Hx2]. by apply Hreq in Hx1. }
  assert (Hrun : merge_existing (_leads_df self) (prepared_table imported)
                 = inl (AttributeError
                          ("'DataFrame' object has no attribute '" +:+ c +:+ "'"))).
  { unfold first_missing_attribute in Hfirst. unfold merge_existing.
    rewrite !filter_cons, filter_nil in Hfirst.
    destruct (decide ("status" ∉ columns (_leads_df self))) as [Hs|Hs].
    { cbn [head] in Hfirst. injection Hfirst as <-.
      rewrite (getattr_missing "status" (_leads_df self)) by done. reflexivity. }
    apply dec_stable in Hs. rewrite (getattr_column "status" (_leads_df self)) by done.
    cbn [mbind exn_bind].
    destruct (decide ("url" ∉ columns (_leads_df self))) as [Hu|Hu].
    { cbn [head] in Hfirst. injection Hfirst as <-.
      rewrite (getattr_missing "url" (_leads_df self)) by done. reflexivity. }
    apply dec_stable in Hu. rewrite (getattr_column "url" (_leads_df self)) by done.
    cbn [mbind exn_bind].
    destruct (decide ("notes" ∉ columns (_leads_df self))) as [Hn|Hn]; [|done].
    cbn [head] in Hfirst. injection Hfirst as <-.
    rewrite (getattr_missing "notes" (_leads_df self)) by done. reflexivity. }
  unfold sync_leads. rewrite merged_leads_run by done.
  rewrite Hempty. cbn [negb]. by rewrite Hrun.
Qed.

Lemma sync_leads_table_without_column_witness :
  empty (_leads_df sample_without_status) = false
  /\ first_missing_attribute (_leads_df sample_without_status) = Some "status"
  /\ sync_leads (inr sample_import) sample_without_status
     = (sample_without_status,
        (false, Some "Error processing CSV file: 'DataFrame' object has no attribute 'status'")).
Proof.
  assert (H1 : empty (_leads_df sample_without_status) = false) by reflexivity.
  assert (H3 : first_missing_attribute (_leads_df sample_without_status)
               = Some "status") by reflexivity.
  split; [exact H1|]. split; [exact H3|].
  exact (sync_leads_table_without_column sample_without_status sample_import
           "status" H1 sample_import_required H3).
Defined.

(** ** Well-formed tables *)

Lemma lookup_column_elem c s d :
  NoDup d.*1 -> (c, s) ∈ d -> lookup_column c d = Some s.
Proof.
  induction d as [|[c0 s0] d IH]; intros Hnd Hin; [inversion Hin|].
  rewrite fmap_cons in Hnd. apply NoDup_cons in Hnd as [Hnotin Hnd].
  cbn [lookup_column]. apply elem_of_cons in Hin as [Heq|Hin].
  - injection Heq as -> ->. by rewrite decide_True.
  - rewrite decide_False; [by apply IH|].
    intros ->. apply Hnotin. apply list_elem_of_fmap. by exists (c, s).
Qed.

Lemma wf_intro df :
  NoDup (index df) -> NoDup (columns df) ->
  (forall c, c ∈ columns df -> length (column c df) = len df) ->
  wf df = true.
Proof.
  intros Hix Hcols Hlen. unfold wf.
  rewrite !andb_true_iff, !bool_decide_eq_true. split; [done|].
  apply forallb_forall. intros [c s] Hin. apply bool_decide_eq_true. cbn.
  apply list_elem_of_In in Hin.
  pose proof (lookup_column_elem c s (data df) Hcols Hin) as Hlook.
  specialize (Hlen c). unfold column in Hlen. rewrite Hlook in Hlen.
  apply Hlen. apply list_elem_of_fmap. by exists (c, s).
Qed.

Lemma wf_NoDup_columns df : wf df = true -> NoDup (columns df).
Proof.
  unfold wf. intros H. apply andb_true_iff in H as [H _].
  apply andb_true_iff in H as [_ H]. by apply bool_decide_eq_true in H.
Qed.

Lemma wf_setitem c s df :
  wf df = true -> length s = len df -> wf (setitem c s df) = true.
Proof.
  intros Hwf Hlen. apply wf_intro.
  - cbn [index setitem]. by apply wf_NoDup_index.
  - rewrite columns_setitem. destruct (decide (c ∈ columns df)).
    + by apply wf_NoDup_columns.
    + apply NoDup_app. split; [by apply wf_NoDup_columns|].
      split; [|apply NoDup_singleton].
      intros x Hx Hx'. apply list_elem_of_singleton in Hx'. by subst.
  - intros c' Hc'. rewrite column_setitem.
    destruct (decide (c' = c)) as [->|Hne]; [done|].
    change (len (setitem c s df)) with (len df).
    apply wf_column_length; [done|].
    rewrite columns_setitem in Hc'. destruct (decide (c ∈ columns df)); [done|].
    apply elem_of_app in Hc' as [?|Hc']; [done|].
    apply list_elem_of_singleton in Hc'. done.
Qed.

Lemma prepared_table_wf df :
  wf df = true -> missing_columns df = [] -> wf (prepared_table df) = true.
Proof.
  intros Hwf Hmiss.
  destruct (prepared_table_spec df Hmiss)
    as (Hix & Hcols & Hcol & Hst & Hno & _ & _).
  apply wf_intro.
  - rewrite Hix. by apply wf_NoDup_index.
  - rewrite Hcols. pose proof (wf_NoDup_columns _ Hwf) as Hnd.
    destruct (decide ("status" ∈ columns df)) as [Hs|Hs],
             (decide ("notes" ∈ columns df)) as [Hn|Hn];
      rewrite ?app_nil_r; [done| | |].
    + apply NoDup_app. split; [done|]. split; [|apply NoDup_singleton].
      intros x Hx Hx'. apply list_elem_of_singleton in Hx'. by subst.
    + apply NoDup_app. split; [done|]. split; [|apply NoDup_singleton].
      intros x Hx Hx'. apply list_elem_of_singleton in Hx'. by subst.
    + apply NoDup_app. split; [done|]. split; [|compute_done].
      intros x Hx Hx'. apply elem_of_cons in Hx' as [->|Hx']; [done|].
      apply list_elem_of_singleton in Hx'. by subst.
  - intros c Hc. unfold len. rewrite Hix. fold (len df).
    destruct (decide (c = "status")) as [->|Hs].
    { rewrite Hst. by apply imported_status_length. }
    destruct (decide (c = "notes")) as [->|Hn].
    { rewrite Hno. by apply imported_notes_length. }
    rewrite Hcol by done.
    assert (Hin : c ∈ columns df).
    { rewrite Hcols in Hc. apply elem_of_app in Hc as [?|Hc]; [done|].
      apply elem_of_app in Hc as [Hc|Hc].
      - destruct (decide ("status" ∈ columns df)); [inversion Hc|].
        apply list_elem_of_singleton in Hc. done.
      - destruct (decide ("notes" ∈ columns df)); [inversion Hc|].
        apply list_elem_of_singleton in Hc. done. }
    destruct (decide (c ∈ text_columns)).
    + rewrite length_fmap. by apply wf_column_length.
    + by apply wf_column_length.
Qed.

Lemma prepared_table_lead_columns df c :
  missing_columns df = [] -> c ∈ lead_columns -> c ∈ columns (prepared_table df).
Proof.
  intros Hmiss Hc.
  destruct (prepared_table_spec df Hmiss) as (_ & Hcols & _ & _ & _ & Hs & Hn).
  unfold lead_columns in Hc.
  repeat (apply elem_of_cons in Hc as [->|Hc];
          [first [ done
                 | rewrite Hcols; apply elem_of_app; left;
                   apply missing_columns_nil; [done | compute_done] ]|]).
  inversion Hc.
Qed.

Lemma is_leads_table_intro df :
  wf df = true -> (forall c, c ∈ lead_columns -> c ∈ columns df) ->
  is_leads_table df = true.
Proof.
  intros Hwf Hall. unfold is_leads_table. rewrite Hwf. cbn [andb].
  apply forallb_forall. intros c Hc. apply has_column_true, Hall.
  by apply list_elem_of_In.
Qed.

(** The table that a successful call of [sync_leads] puts in place. *)
Lemma merged_leads_leads_table existing imported merged :
  wf imported = true ->
  merged_leads existing (inr imported) = inr merged ->
  is_leads_table merged = true.
Proof.
  intros Hwf Hrun.
  assert (Hmiss : missing_columns imported = []).
  { unfold merged_leads in Hrun. cbn [mbind exn_bind] in Hrun.
    destruct (bool_decide (missing_columns imported ≠ [])) eqn:Hb; [done|].
    apply bool_decide_eq_false in Hb. by apply dec_stable in Hb. }
  rewrite merged_leads_run in Hrun by done.
  pose proof (prepared_table_wf _ Hwf Hmiss) as HwfP.
  pose proof (prepared_table_lead_columns imported) as HcolsP.
  destruct (negb (empty existing)).
  - unfold merge_existing in Hrun.
    destruct (getattr "status" existing) as [|st]; [done|].
    destruct (getattr "url" existing) as [|url]; [done|].
    destruct (getattr "notes" existing) as [|no]; [done|].
    cbn [mbind exn_bind] in Hrun.
    rewrite (getattr_column "url" (prepared_table imported)) in Hrun
      by (apply HcolsP; [done | compute_done]).
    cbn [mbind exn_bind] in Hrun. unfold loc_setitem in Hrun.
    rewrite (getitem_column "status" (prepared_table imported)) in Hrun
      by (apply HcolsP; [done | compute_done]).
    cbn [mbind exn_bind mret exn_ret] in Hrun.
    match type of Hrun with
    | context [setitem "status" ?s (prepared_table imported)] =>
        set (S1 := s) in *;
        assert (HwfS : wf (setitem "status" S1 (prepared_table imported)) = true)
    end.
    { apply wf_setitem; [done|]. unfold S1. rewrite where_mask_length.
      apply wf_column_length; [done|]. apply HcolsP; [done | compute_done]. }
    assert (HcolsS : columns (setitem "status" S1 (prepared_table imported))
                     = columns (prepared_table imported)).
    { apply columns_setitem_in. apply HcolsP; [done | compute_done]. }
    rewrite getattr_column in Hrun
      by (rewrite HcolsS; apply HcolsP; [done | compute_done]).
    cbn [mbind exn_bind] in Hrun.
    rewrite getitem_column in Hrun
      by (rewrite HcolsS; apply HcolsP; [done | compute_done]).
    cbn [mbind exn_bind mret exn_ret] in Hrun. injection Hrun as <-.
    apply is_leads_table_intro.
    + apply wf_setitem; [done|]. rewrite where_mask_length.
      apply wf_column_length; [done|].
      rewrite HcolsS. apply HcolsP; [done | compute_done].
    + intros c Hc. rewrite columns_setitem_in, HcolsS.
      * by apply HcolsP.
      * rewrite HcolsS. apply HcolsP; [done | compute_done].
  - injection Hrun as <-. apply is_leads_table_intro; [done|].
    intros c Hc. by apply HcolsP.
Qed.

(** X6: [sync_leads] keeps the table in place a table of leads.  Whatever
    comes out of reading the CSV, an exception or a well-formed table, with
    or without the required columns, the table of the manager after the
    call is again well-formed and has the nine columns of a lead. *)
Theorem sync_leads_keeps_leads_table (csv : exn + DataFrame) (self : LeadManager) :
  is_leads_table (_leads_df self) = true ->
  (forall imported, csv = inr imported -> wf imported = true) ->
  is_leads_table (_leads_df (sync_leads csv self).1) = true.
Proof.
  intros HE Hwf. unfold sync_leads.
  destruct (merged_leads (_leads_df self) csv) as [e|merged] eqn:Hrun.
  - by destruct (is_ValueError e).
  - cbn [fst _leads_df]. destruct csv as [e|imported]; [done|].
    eapply merged_leads_leads_table; [|exact Hrun]. by apply Hwf.
Qed.

Lemma sync_leads_keeps_leads_table_witness :
  is_leads_table (_leads_df sample_manager) = true
  /\ is_leads_table
       (_leads_df (sync_leads (inr sample_import) sample_manager).1) = true.
Proof.
  assert (H1 : is_leads_table (_leads_df sample_manager) = true) by reflexivity.
  split; [exact H1|].
  apply (sync_leads_keeps_leads_table (inr sample_import) sample_manager H1).
  intros imported [= <-]. reflexivity.
Defined.

Lemma enlarge_rows_wf idx df : wf df = true -> wf (enlarge_rows idx df) = true.
Proof.
  intros Hwf. unfold enlarge_rows.
  destruct (decide (idx ∈ index df)) as [Hin|Hnin]; [done|].
  pose proof Hwf as Hwf'. unfold wf in Hwf'.
  rewrite !andb_true_iff, !bool_decide_eq_true in Hwf'.
  destruct Hwf' as [[Hix Hcols] Hlen].
  unfold wf. rewrite !andb_true_iff, !bool_decide_eq_true. cbn [index data].
  split; [split|].
  - apply NoDup_app. split; [done|]. split; [|apply NoDup_singleton].
    intros x Hx Hx'. apply list_elem_of_singleton in Hx'. by subst.
  - unfold columns. cbn [data]. rewrite <- list_fmap_compose.
    by rewrite (list_fmap_ext _ fst (data df)) by done.
  - rewrite forallb_forall in Hlen. apply forallb_forall. intros p Hp.
    apply list_elem_of_In, list_elem_of_fmap in Hp as (q & -> & Hq).
    apply list_elem_of_In, Hlen, bool_decide_eq_true in Hq.
    apply bool_decide_eq_true. cbn. unfold len in *. cbn [index].
    rewrite !length_app, Hq. done.
Qed.

Lemma enlarge_rows_columns idx df : columns (enlarge_rows idx df) = columns df.
Proof.
  unfold enlarge_rows. destruct (decide (idx ∈ index df)); [done|].
  unfold columns. cbn [data]. rewrite <- list_fmap_compose.
  by rewrite (list_fmap_ext _ fst (data df)) by done.
Qed.

Lemma enlarge_columns_wf c df : wf df = true -> wf (enlarge_columns c df) = true.
Proof.
  intros Hwf. unfold enlarge_columns. destruct (has_column c df); [done|].
  unfold setitem_scalar. apply wf_setitem; [done|]. apply length_replicate.
Qed.

Lemma enlarge_columns_columns c df c' :
  c' ∈ columns df -> c' ∈ columns (enlarge_columns c df).
Proof.
  intros Hc'. unfold enlarge_columns. destruct (has_column c df) eqn:Hc; [done|].
  apply has_column_false in Hc. unfold setitem_scalar.
  rewrite columns_setitem_notin by done. apply elem_of_app. by left.
Qed.

Lemma lookup_column_length c s df :
  wf df = true -> lookup_column c (data df) = Some s -> length s = len df.
Proof.
  intros Hwf Hs.
  assert (Hc : c ∈ columns df) by (apply lookup_column_is_Some; eauto).
  pose proof (wf_column_length c df Hwf Hc) as Hlen.
  unfold column in Hlen. by rewrite Hs in Hlen.
Qed.

Lemma at_set_wf idx c v df : wf df = true -> wf (at_set idx c v df) = true.
Proof.
  intros Hwf. unfold at_set.
  set (df' := enlarge_columns c (enlarge_rows idx df)).
  assert (Hwf' : wf df' = true) by (by apply enlarge_columns_wf, enlarge_rows_wf).
  destruct (get_loc idx (index df')) as [i|]; [|done].
  destruct (lookup_column c (data df')) as [s|] eqn:Hs; [|done].
  apply wf_setitem; [done|]. rewrite length_insert.
  by eapply lookup_column_length.
Qed.

Lemma at_set_columns idx c v df c' :
  c' ∈ columns df -> c' ∈ columns (at_set idx c v df).
Proof.
  intros Hc'. unfold at_set.
  set (df' := enlarge_columns c (enlarge_rows idx df)).
  assert (H' : c' ∈ columns df').
  { apply enlarge_columns_columns. by rewrite enlarge_rows_columns. }
  destruct (get_loc idx (index df')) as [i|]; [|done].
  destruct (lookup_column c (data df')) as [s|] eqn:Hs; [|done].
  rewrite columns_setitem_in; [done|].
  apply lookup_column_is_Some. eauto.
Qed.

Lemma at_set_leads_table idx c v df :
  is_leads_table df = true -> is_leads_table (at_set idx c v df) = true.
Proof.
  intros H. apply is_leads_table_intro.
  - by apply at_set_wf, is_leads_table_wf.
  - intros c' Hc'. apply at_set_columns. by apply is_leads_table_columns.
Qed.

Lemma foldl_at_set_leads_table c v indices df :
  is_leads_table df = true ->
  is_leads_table (foldl (fun df idx => at_set idx c v df) df indices) = true.
Proof.
  revert df. induction indices as [|idx indices IH]; intros df H; [done|].
  simpl. by apply IH, at_set_leads_table.
Qed.

Lemma append_notes_leads_table indices note df clk :
  is_leads_table df = true ->
  is_leads_table (append_notes indices note df clk).1.1 = true.
Proof.
  revert df clk. induction indices as [|idx indices IH]; intros df clk H; [done|].
  cbn [append_notes]. destruct (at_get idx "notes" df); [done|].
  by apply IH, at_set_leads_table.
Qed.

(** X7: the methods that edit records keep the table in place a table of
    leads, well-formed and with its nine columns, whatever labels and values
    they are given, labels that are not in the table included, and for
    [bulk_append_notes] also when it stops on an exception. *)
Theorem edits_keep_leads_table (self : LeadManager) :
  is_leads_table (_leads_df self) = true ->
  (forall idx status,
     is_leads_table (_leads_df (update_lead_status idx status self)) = true)
  /\ (forall indices status,
        is_leads_table (_leads_df (bulk_update_status indices status self)) = true)
  /\ (forall indices notes clk,
        is_leads_table
          (_leads_df (bulk_append_notes indices notes self clk).1.1) = true)
  /\ (forall is_string_dtype idx notes,
        is_leads_table
          (_leads_df (update_lead_notes is_string_dtype idx notes self).1) = true).
Proof.
  intros H. split; [|split; [|split]].
  - intros idx status. by apply at_set_leads_table.
  - intros indices status. by apply foldl_at_set_leads_table.
  - intros indices notes clk. unfold bulk_append_notes. cbn [datetime.now].
    pose proof (append_notes_leads_table indices
                  (formatted_note (datetime.time_at clk (datetime.instant clk)) notes)
                  (_leads_df self)
                  {| datetime.time_at := datetime.time_at clk;
                     datetime.instant := S (datetime.instant clk);
                     datetime.reads := S (datetime.reads clk) |} H) as Hloop.
    destruct (append_notes _ _ _ _) as [[df clk'] [e|]]; exact Hloop.
  - intros is_string_dtype idx notes. unfold update_lead_notes.
    pose proof (is_leads_table_columns _ "notes" H) as Hn.
    rewrite getitem_column by (apply Hn; compute_done). cbn [fst _leads_df].
    apply at_set_leads_table.
    destruct (negb (is_string_dtype (column "notes" (_leads_df self)))); [|done].
    apply is_leads_table_intro.
    + apply wf_setitem; [by apply is_leads_table_wf|].
      unfold astype_str, fillna. rewrite !length_fmap.
      apply wf_column_length; [by apply is_leads_table_wf|].
      apply Hn. compute_done.
    + intros c Hc. rewrite columns_setitem_in by (apply Hn; compute_done).
      by apply is_leads_table_columns.
Qed.

Lemma edits_keep_leads_table_witness :
  is_leads_table (_leads_df sample_manager) = true
  /\ is_leads_table (_leads_df (update_lead_status 7 "Closed" sample_manager))
     = true.
Proof.
  assert (H : is_leads_table (_leads_df sample_manager) = true) by reflexivity.
  split; [exact H|].
  exact (proj1 (edits_keep_leads_table sample_manager H) 7%Z "Closed").
Defined.

(** ** Editing several records *)

Lemma foldl_update_lead_status status indices self :
  _leads_df (foldl (fun m idx => update_lead_status idx status m) self indices)
  = foldl (fun df idx => at_set idx "status" (Str status) df)
          (_leads_df self) indices
  /\ writable (storage (foldl (fun m idx => update_lead_status idx status m)
                              self indices))
     = writable (storage self)
  /\ (writable (storage self) = true ->
      writes (storage (foldl (fun m idx => update_lead_status idx status m)
                             self indices))
      = (writes (storage self) + length indices)%nat).
Proof.
  revert self. induction indices as [|idx indices IH]; intros self.
  - cbn. repeat split. intros _. lia.
  - cbn [foldl length]. destruct (IH (update_lead_status idx status self))
      as (Hdf & Hw & Hn).
    assert (Hw1 : writable (storage (update_lead_status idx status self))
                  = writable (storage self)).
    { unfold update_lead_status, save_progress. cbn [storage].
      destruct (writable (storage self)) eqn:E; [reflexivity | exact E]. }
    split; [exact Hdf|]. split; [by rewrite Hw|].
    intros Hwr. rewrite Hn by (by rewrite Hw1).
    unfold update_lead_status at 1, save_progress. cbn [storage].
    rewrite Hwr. cbn [writes]. lia.
Qed.

(** X8: [bulk_update_status] leaves the table that the updates of the
    records one after another with [update_lead_status] leave, for any list
    of labels; but it writes the file once, where the single updates write
    it once per label. *)
Theorem bulk_update_status_as_single_updates (self : LeadManager)
    (indices : list Z) (status : string) :
  let one_by_one :=
    foldl (fun m idx => update_lead_status idx status m) self indices in
  let bulk := bulk_update_status indices status self in
  _leads_df bulk = _leads_df one_by_one
  /\ (writable (storage self) = true ->
      writes (storage bulk) = S (writes (storage self))
      /\ writes (storage one_by_one)
         = (writes (storage self) + length indices)%nat
      /\ progress_file (storage bulk) = Some (to_csv (_leads_df bulk))).
Proof.
  intros one_by_one bulk.
  destruct (foldl_update_lead_status status indices self) as (Hdf & _ & Hn).
  split; [unfold one_by_one; by rewrite Hdf|].
  intros Hw. split; [|split; [by apply Hn|]].
  - unfold bulk, bulk_update_status, save_progress. cbn [storage].
    by rewrite Hw.
  - unfold bulk, bulk_update_status, save_progress. cbn [storage _leads_df].
    by rewrite Hw.
Qed.

Lemma bulk_update_status_as_single_updates_witness :
  writable (storage sample_pipeline) = true
  /\ _leads_df (bulk_update_status [1; 4]%Z "Contacted" sample_pipeline)
     = _leads_df (update_lead_status 4 "Contacted"
                    (update_lead_status 1 "Contacted" sample_pipeline))
  /\ writes (storage (bulk_update_status [1; 4]%Z "Contacted" sample_pipeline))
     = 1%nat.
Proof.
  assert (H : writable (storage sample_pipeline) = true) by reflexivity.
  split; [exact H|].
  destruct (bulk_update_status_as_single_updates sample_pipeline [1; 4]%Z
              "Contacted") as (Hdf & Hw).
  split; [exact Hdf|]. exact (proj1 (Hw H)).
Defined.

(** ** A label that is not in the table *)

Lemma get_loc_None idx ix : idx ∉ ix -> get_loc idx ix = None.
Proof.
  induction ix as [|x ix IH]; intros Hnin; [done|].
  apply not_elem_of_cons in Hnin as [Hne Hnin]. simpl.
  rewrite decide_False by congruence. by rewrite IH.
Qed.

Lemma get_loc_app_new idx ix :
  idx ∉ ix -> get_loc idx (ix ++ [idx]) = Some (length ix).
Proof.
  induction ix as [|x ix IH]; intros Hnin; simpl.
  - by rewrite decide_True.
  - apply not_elem_of_cons in Hnin as [Hne Hnin].
    rewrite decide_False by congruence. by rewrite IH.
Qed.

Lemma lookup_column_fmap (f : list cell -> list cell) c d :
  lookup_column c ((fun p => (p.1, f p.2)) <$> d) = f <$> lookup_column c d.
Proof.
  induction d as [|[c0 s0] d IH]; [done|]. cbn.
  destruct (decide (c0 = c)); [done | exact IH].
Qed.

(** X9: [update_lead_status] with a label that is not in the table does
    not fail: the table gets one more record under this label, with the
    status given and a missing value in every other column. *)
Theorem update_lead_status_unknown_label (self : LeadManager) (idx : Z)
    (status : string) :
  wf (_leads_df self) = true ->
  "status" ∈ columns (_leads_df self) ->
  idx ∉ index (_leads_df self) ->
  let df := _leads_df self in
  let df' := _leads_df (update_lead_status idx status self) in
  index df' = index df ++ [idx]
  /\ columns df' = columns df
  /\ column "status" df' = column "status" df ++ [Str status]
  /\ (forall c, c ∈ columns df -> c ≠ "status" ->
        column c df' = column c df ++ [NaN]).
Proof.
  intros Hwf Hst Hnin df df'.
  set (df1 := {| index := index df ++ [idx];
                 data := (fun p => (p.1, p.2 ++ [NaN])) <$> data df |}).
  assert (Hrows : enlarge_rows idx df = df1).
  { unfold enlarge_rows. by rewrite decide_False. }
  assert (Hcols1 : columns df1 = columns df).
  { rewrite <- Hrows. apply enlarge_rows_columns. }
  assert (Hcol1 : forall c, c ∈ columns df -> column c df1 = column c df ++ [NaN]).
  { intros c Hc. unfold column, df1. cbn [data].
    rewrite (lookup_column_fmap (fun s => s ++ [NaN])).
    apply lookup_column_is_Some in Hc as [s Hs]. by rewrite Hs. }
  assert (Hdf' : df' = setitem "status" (column "status" df ++ [Str status]) df1).
  { unfold df', update_lead_status. cbn [_leads_df]. unfold at_set.
    fold df. rewrite Hrows.
    assert (Hec : enlarge_columns "status" df1 = df1).
    { unfold enlarge_columns.
      by rewrite (proj2 (has_column_true "status" df1)) by (by rewrite Hcols1). }
    rewrite Hec. cbn [index df1]. rewrite get_loc_app_new by done.
    pose proof (Hcol1 "status" Hst) as Hs1. unfold column in Hs1 at 1.
    destruct (lookup_column "status" (data df1)) as [s1|] eqn:Hl.
    - cbn in Hs1. subst s1. f_equal.
      pose proof (wf_column_length "status" df Hwf Hst) as Hlen.
      unfold len in Hlen. rewrite <- Hlen.
      rewrite <- (Nat.add_0_r (length (column "status" df))).
      by rewrite insert_app_r.
    - exfalso. apply lookup_column_None in Hl. apply Hl.
      fold (columns df1). by rewrite Hcols1. }
  rewrite Hdf'. split; [done|].
  split; [rewrite columns_setitem_in; [done | by rewrite Hcols1]|].
  split; [by rewrite column_setitem, decide_True|].
  intros c Hc Hne. rewrite column_setitem, decide_False by done. by apply Hcol1.
Qed.

Lemma update_lead_status_unknown_label_witness :
  let df' := _leads_df (update_lead_status 9 "New" sample_odd_status) in
  wf (_leads_df sample_odd_status) = true
  /\ (9%Z ∉ index (_leads_df sample_odd_status))
  /\ index df' = [0; 9]%Z
  /\ column "status" df' = [Str "Archived"; Str "New"].
Proof.
  intros df'.
  assert (H1 : wf (_leads_df sample_odd_status) = true) by reflexivity.
  assert (H2 : "status" ∈ columns (_leads_df sample_odd_status)) by compute_done.
  assert (H3 : 9%Z ∉ index (_leads_df sample_odd_status)) by compute_done.
  split; [exact H1|]. split; [exact H3|].
  destruct (update_lead_status_unknown_label sample_odd_status 9 "New"
              H1 H2 H3) as (Hix & _ & Hst & _).
  split; [exact Hix | exact Hst].
Defined.

Example update_lead_status_unknown_label_sample :
  _leads_df (update_lead_status 9 "New" sample_odd_status)
  = {| index := [0; 9]%Z;
       data := [("url", [Str "u0"; NaN]);
                ("status", [Str "Archived"; Str "New"]);
                ("notes", [Str ""; NaN])] |}.
Proof. vm_compute. reflexivity. Qed.

Lemma append_notes_app l1 l2 note df clk :
  append_notes (l1 ++ l2) note df clk
  = match append_notes l1 note df clk with
    | (df', clk', None) => append_notes l2 note df' clk'
    | stopped => stopped
    end.
Proof.
  revert df clk. induction l1 as [|idx l1 IH]; intros df clk; [done|].
  cbn [app append_notes]. destruct (at_get idx "notes" df); [done|].
  apply IH.
Qed.

(** X10: when a label of the batch is not in the table,
    [bulk_append_notes] raises the [KeyError] of that label.  The records
    listed before it have got their line by then and keep it in memory, the
    records listed after it are not touched, and nothing is saved: the
    store is as it was. *)
Theorem bulk_append_notes_unknown_label (self : LeadManager)
    (clk : datetime.Clock) (known : list Z) (bad : Z) (rest : list Z)
    (notes : string) :
  wf (_leads_df self) = true ->
  "notes" ∈ columns (_leads_df self) ->
  NoDup known ->
  (forall idx, idx ∈ known -> idx ∈ index (_leads_df self)) ->
  bad ∉ index (_leads_df self) ->
  let df := _leads_df self in
  let line := formatted_note (datetime.time_at clk (datetime.instant clk)) notes in
  let out := bulk_append_notes (known ++ bad :: rest) notes self clk in
  out.2 = Some (KeyError (pretty bad))
  /\ index (_leads_df out.1.1) = index df
  /\ column "notes" (_leads_df out.1.1)
     = appended known line (index df) (column "notes" df)
  /\ storage out.1.1 = storage self.
Proof.
  intros Hwf Hcol Hnd Hsub Hbad df line out.
  destruct (append_notes_ok known line df
              (datetime.now clk).2 (wf_NoDup_index _ Hwf) Hcol
              (wf_column_length _ _ Hwf Hcol) Hnd Hsub)
    as (d & k & Hrun & Hix & Hcols & Hnotes & _).
  assert (Hout : out = ({| storage := storage self; _leads_df := d |},
                        datetime.elapse k, Some (KeyError (pretty bad)))).
  { unfold out, bulk_append_notes. cbn [datetime.now].
    cbn [datetime.now snd] in Hrun. fold df. fold line.
    rewrite append_notes_app, Hrun. cbn [append_notes]. unfold at_get.
    rewrite getitem_column by (by rewrite Hcols). cbn [mbind exn_bind].
    rewrite Hix, get_loc_None by done. reflexivity. }
  rewrite Hout. cbn [fst snd storage _leads_df]. by repeat split.
Qed.

Lemma bulk_append_notes_unknown_label_witness :
  let out := bulk_append_notes [0; 8; 3]%Z "called" sample_pipeline sample_clock in
  wf (_leads_df sample_pipeline) = true
  /\ (8%Z ∉ index (_leads_df sample_pipeline))
  /\ out.2 = Some (KeyError "8")
  /\ storage out.1.1 = storage sample_pipeline.
Proof.
  intros out.
  assert (H1 : wf (_leads_df sample_pipeline) = true) by reflexivity.
  assert (H2 : "notes" ∈ columns (_leads_df sample_pipeline)) by compute_done.
  assert (H3 : NoDup [0%Z]) by compute_done.
  assert (H4 : forall idx, idx ∈ [0%Z] -> idx ∈ index (_leads_df sample_pipeline)).
  { intros idx H. apply list_elem_of_singleton in H as ->. compute_done. }
  assert (H5 : 8%Z ∉ index (_leads_df sample_pipeline)) by compute_done.
  split; [exact H1|]. split; [exact H5|].
  destruct (bulk_append_notes_unknown_label sample_pipeline sample_clock
              [0%Z] 8 [3%Z] "called" H1 H2 H3 H4 H5) as (R1 & _ & _ & R4).
  split; [exact R1 | exact R4].
Defined.

Example bulk_append_notes_unknown_label_sample :
  let out := bulk_append_notes [0; 8; 3]%Z "called" sample_pipeline sample_clock in
  let nl := String utils.newline "" in
  column "notes" (_leads_df out.1.1)
  = [Str ("abcd" +:+ nl +:+ "[2024-03-09 10:59] called"); Str ""; NaN;
     Str "ab"; Str ""; Str ""].
Proof. vm_compute. reflexivity. Qed.

(** ** Editing the notes of one record *)




(** ** Rates between the stages *)

Lemma percent_bounds (part whole : Z) :
  (0 <= part <= whole)%Z -> (0 < whole)%Z ->
  (0 <= inject_Z part / inject_Z whole * 100)%Q
  /\ (inject_Z part / inject_Z whole * 100 <= 100)%Q.
Proof.
  intros Hp Hw. destruct whole as [|w|w]; [lia| |lia].
  unfold Qle, Qdiv, Qmult, Qinv, inject_Z. cbn. split; nia.
Qed.

Lemma percent_nonneg (part whole : Z) :
  (0 <= part)%Z -> (0 < whole)%Z ->
  (0 <= inject_Z part / inject_Z whole * 100)%Q.
Proof.
  intros Hp Hw. destruct whole as [|w|w]; [lia| |lia].
  unfold Qle, Qdiv, Qmult, Qinv, inject_Z. cbn. nia.
Qed.

Lemma ratio_nonneg whole part : (0 <= part)%Z -> (0 <= ratio whole part)%Q.
Proof.
  intros Hp. unfold ratio. destruct (0 <? whole)%Z eqn:Hw; [|done].
  apply Z.ltb_lt in Hw. by apply percent_nonneg.
Qed.

(** X12: for a table that is not empty, each of the three rates of
    [get_conversion_rates] is the number of records in the later stage as a
    percentage of the number of records in the earlier stage, and 0 when no
    record is in the earlier stage.  A rate is never negative, but nothing
    keeps it below 100: it compares the sizes of two stages. *)
Theorem get_conversion_rates_spec (self : LeadManager) :
  let df := get_leads self in
  let records l := records_with [l] (column "status" df) in
  empty df = false ->
  "status" ∈ columns df ->
  exists r,
    get_conversion_rates self = inr r
    /\ new_to_progress r = ratio (records "New") (records "In Progress")
    /\ progress_to_contacted r = ratio (records "In Progress") (records "Contacted")
    /\ contacted_to_closed r = ratio (records "Contacted") (records "Closed")
    /\ (0 <= new_to_progress r)%Q /\ (0 <= progress_to_contacted r)%Q
    /\ (0 <= contacted_to_closed r)%Q
    /\ (records "New" = 0%Z -> new_to_progress r = 0%Q)
    /\ (records "In Progress" = 0%Z -> progress_to_contacted r = 0%Q)
    /\ (records "Contacted" = 0%Z -> contacted_to_closed r = 0%Q).
Proof.
  intros df records Hempty Hstatus.
  unfold get_conversion_rates. fold df. rewrite Hempty.
  rewrite (getitem_column _ _ Hstatus). cbn [mbind exn_bind mret exn_ret].
  eexists. split; [reflexivity|].
  cbn [new_to_progress progress_to_contacted contacted_to_closed].
  unfold calculate_rate. rewrite !get_count_value_counts.
  fold (records "New"). fold (records "In Progress").
  fold (records "Contacted"). fold (records "Closed").
  fold (ratio (records "New") (records "In Progress")).
  fold (ratio (records "In Progress") (records "Contacted")).
  fold (ratio (records "Contacted") (records "Closed")).
  split; [reflexivity|]. split; [reflexivity|]. split; [reflexivity|].
  split; [apply ratio_nonneg, records_with_nonneg|].
  split; [apply ratio_nonneg, records_with_nonneg|].
  split; [apply ratio_nonneg, records_with_nonneg|].
  repeat split; intros H; unfold ratio; by rewrite H.
Qed.

Lemma get_conversion_rates_spec_witness :
  empty (get_leads sample_two_in_progress) = false
  /\ exists r,
       get_conversion_rates sample_two_in_progress = inr r
       /\ (new_to_progress r == 200)%Q
       /\ (progress_to_contacted r == 0)%Q
       /\ contacted_to_closed r = 0%Q.
Proof.
  assert (H1 : empty (get_leads sample_two_in_progress) = false) by reflexivity.
  assert (H2 : "status" ∈ columns (get_leads sample_two_in_progress))
    by compute_done.
  split; [exact H1|].
  destruct (get_conversion_rates_spec sample_two_in_progress H1 H2)
    as (r & Hrun & Hn & Hp & _ & _ & _ & _ & _ & _ & Hc).
  exists r. split; [exact Hrun|]. split; [|split].
  - rewrite Hn. reflexivity.
  - rewrite Hp. reflexivity.
  - apply Hc. reflexivity.
Defined.

(** ** The funnel and the distribution *)

Lemma get_funnel_data_run (self : LeadManager) :
  let df := get_leads self in
  let n := Z.of_nat (len df) in
  let records l := records_with [l] (column "status" df) in
  let c1 := (n - records "New")%Z in
  let c2 := (c1 - records "In Progress")%Z in
  let c3 := (c2 - records "Contacted")%Z in
  empty df = false ->
  "status" ∈ columns df ->
  get_funnel_data self
  = inr [ {| status := "New"; count := n; percentage := percent n n |};
          {| status := "In Progress"; count := c1; percentage := percent c1 n |};
          {| status := "Contacted"; count := c2; percentage := percent c2 n |};
          {| status := "Closed"; count := c3; percentage := percent c3 n |} ].
Proof.
  intros df n records c1 c2 c3 Hempty Hstatus.
  unfold get_funnel_data. fold df. rewrite Hempty.
  rewrite (getitem_column _ _ Hstatus). cbn [mbind exn_bind].
  unfold status_order. cbn [foldl app]. fold n.
  rewrite !get_count_value_counts. reflexivity.
Qed.

Lemma get_status_distribution_run (self : LeadManager) :
  let df := get_leads self in
  let records l := records_with [l] (column "status" df) in
  empty df = false ->
  "status" ∈ columns df ->
  get_status_distribution self
  = inr {| labels := status_order;
           values := [records "New"; records "In Progress";
                      records "Contacted"; records "Closed"] |}.
Proof.
  intros df records Hempty Hstatus.
  unfold get_status_distribution. fold df. rewrite Hempty.
  rewrite (getitem_column _ _ Hstatus). cbn [mbind exn_bind mret exn_ret].
  unfold reindex, status_order. cbn [fmap list_fmap fst snd].
  rewrite !get_count_value_counts. reflexivity.
Qed.

Lemma records_with_other s :
  Z.of_nat (length s) = (records_with status_order s + other_records s)%Z.
Proof.
  unfold records_with, other_records.
  induction s as [|c s IH]; [done|].
  rewrite !filter_cons. cbn [length].
  destruct (status_in status_order c); cbn [negb].
  - destruct (decide (Is_true true)) as [_|[]]; [|done].
    destruct (decide (Is_true false)) as [[]|]. cbn [length]. lia.
  - destruct (decide (Is_true false)) as [[]|].
    destruct (decide (Is_true true)) as [_|[]]; [|done]. cbn [length]. lia.
Qed.

Lemma records_with_status_order s :
  records_with status_order s
  = (records_with ["New"] s + records_with ["In Progress"] s
     + records_with ["Contacted"] s + records_with ["Closed"] s)%Z.
Proof.
  unfold status_order.
  rewrite (records_with_cons "New" ["In Progress"; "Contacted"; "Closed"])
    by compute_done.
  rewrite (records_with_cons "In Progress" ["Contacted"; "Closed"])
    by compute_done.
  rewrite (records_with_cons "Contacted" ["Closed"]) by compute_done. lia.
Qed.

(** X13: the funnel and the distribution of a table agree.  From one stage
    of the funnel to the next the count goes down by the value that
    [get_status_distribution] gives for the stage left; and the count of
    the last stage, Closed, is the value for Closed plus the number of
    records that have none of the four statuses or no status at all. *)
Theorem funnel_steps_match_distribution (self : LeadManager) :
  let df := get_leads self in
  wf df = true ->
  empty df = false ->
  "status" ∈ columns df ->
  exists e0 e1 e2 e3 v0 v1 v2 v3,
    get_funnel_data self = inr [e0; e1; e2; e3]
    /\ get_status_distribution self
       = inr {| labels := status_order; values := [v0; v1; v2; v3] |}
    /\ count e0 = (v0 + count e1)%Z
    /\ count e1 = (v1 + count e2)%Z
    /\ count e2 = (v2 + count e3)%Z
    /\ count e3 = (v3 + other_records (column "status" df))%Z.
Proof.
  intros df Hwf Hempty Hstatus.
  do 8 eexists.
  split; [by apply get_funnel_data_run|].
  split; [by apply get_status_distribution_run|].
  cbn [count]. fold df.
  pose proof (records_with_other (column "status" df)) as Hsplit.
  rewrite records_with_status_order in Hsplit.
  rewrite (wf_column_length _ _ Hwf Hstatus) in Hsplit.
  repeat split; lia.
Qed.

Lemma funnel_steps_match_distribution_witness :
  exists e0 e1 e2 e3 v3,
    get_funnel_data sample_odd_status = inr [e0; e1; e2; e3]
    /\ get_status_distribution sample_odd_status
       = inr {| labels := status_order; values := [0; 0; 0; v3]%Z |}
    /\ count e3 = (v3 + 1)%Z.
Proof.
  destruct (funnel_steps_match_distribution sample_odd_status)
    as (e0 & e1 & e2 & e3 & v0 & v1 & v2 & v3 & Hf & Hd & _ & _ & _ & H3);
    [reflexivity | reflexivity | compute_done |].
  assert (Hv : [v0; v1; v2] = [0; 0; 0]%Z).
  { assert (Hd' := Hd). vm_compute in Hd'. by injection Hd' as <- <- <- _. }
  injection Hv as -> -> ->.
  exists e0, e1, e2, e3, v3. split; [exact Hf|]. split; [exact Hd|exact H3].
Defined.

Lemma percent_whole n : (0 < n)%Z -> (percent n n == 100)%Q.
Proof.
  intros Hn. unfold percent. rewrite (proj2 (Z.ltb_lt 0 n) Hn).
  destruct n as [|w|w]; [lia| |lia].
  unfold Qeq, Qdiv, Qmult, Qinv, inject_Z. cbn. nia.
Qed.

(** X14: in a well-formed table that is not empty, every entry of the
    funnel has a count between 0 and the number [n] of records and a
    percentage between 0 and 100, and the percentage of the first entry
    is 100. *)
Theorem funnel_percentages_bounded (self : LeadManager) :
  let df := get_leads self in
  let n := Z.of_nat (len df) in
  wf df = true ->
  empty df = false ->
  "status" ∈ columns df ->
  exists first rest,
    get_funnel_data self = inr (first :: rest)
    /\ (percentage first == 100)%Q
    /\ Forall (fun e => (0 <= count e <= n)%Z
                        /\ (0 <= percentage e)%Q /\ (percentage e <= 100)%Q)
              (first :: rest).
Proof.
  intros df n Hwf Hempty Hstatus.
  pose proof (empty_false_len df Hempty) as Hn. fold n in Hn.
  do 2 eexists. split; [by apply get_funnel_data_run|]. fold df. fold n.
  cbn [percentage count]. split; [by apply percent_whole|].
  pose proof (records_with_other (column "status" df)) as Hsplit.
  rewrite records_with_status_order in Hsplit.
  rewrite (wf_column_length _ _ Hwf Hstatus) in Hsplit. fold n in Hsplit.
  pose proof (records_with_nonneg ["New"] (column "status" df)).
  pose proof (records_with_nonneg ["In Progress"] (column "status" df)).
  pose proof (records_with_nonneg ["Contacted"] (column "status" df)).
  pose proof (records_with_nonneg ["Closed"] (column "status" df)).
  assert (Hother : (0 <= other_records (column "status" df))%Z)
    by (unfold other_records; lia).
  assert (Hpct : forall c, (0 <= c <= n)%Z ->
            (0 <= c <= n)%Z /\ (0 <= percent c n)%Q /\ (percent c n <= 100)%Q).
  { intros c Hc. split; [exact Hc|]. unfold percent.
    rewrite (proj2 (Z.ltb_lt 0 n) Hn). by apply percent_bounds. }
  repeat (apply Forall_cons_2; [cbn [count percentage]; apply Hpct; lia|]).
  apply Forall_nil_2.
Qed.

Lemma funnel_percentages_bounded_witness :
  exists first rest,
    get_funnel_data sample_pipeline = inr (first :: rest)
    /\ (percentage first == 100)%Q
    /\ Forall (fun e => (0 <= count e <= 6)%Z
                        /\ (0 <= percentage e)%Q /\ (percentage e <= 100)%Q)
              (first :: rest).
Proof.
  apply (funnel_percentages_bounded sample_pipeline);
    [reflexivity | reflexivity | compute_done].
Defined.

(** ** The statistics on notes, again *)

Lemma assign_column_twice c s1 s2 d :
  assign_column c s2 (assign_column c s1 d) = assign_column c s2 d.
Proof.
  induction d as [|[c' s'] d IH]; simpl.
  - by rewrite decide_True.
  - destruct (decide (c' = c)) as [->|Hne]; simpl.
    + by rewrite decide_True.
    + rewrite decide_False by done. by rewrite IH.
Qed.

Lemma setitem_twice c s1 s2 df :
  setitem c s2 (setitem c s1 df) = setitem c s2 df.
Proof. unfold setitem; simpl. by rewrite assign_column_twice. Qed.

Lemma coerced_twice notes :
  astype_str (fillna (Str "") (astype_str (fillna (Str "") notes)))
  = astype_str (fillna (Str "") notes).
Proof.
  unfold astype_str, fillna. rewrite <- !list_fmap_compose.
  apply list_fmap_ext. by intros i [|x] _.
Qed.

Lemma coerced_strings notes :
  Forall (fun c => isna c = false) (astype_str (fillna (Str "") notes)).
Proof.
  unfold astype_str. apply Forall_fmap, Forall_true. done.
Qed.

Lemma empty_setitem c s df : empty df = false -> empty (setitem c s df) = false.
Proof.
  unfold empty, setitem; simpl. intros H.
  apply orb_false_iff in H as [-> _]. simpl.
  apply bool_decide_eq_false. by destruct (data df) as [|[c' s'] d]; simpl;
    [|destruct (decide (c' = c))].
Qed.

Lemma columns_setitem_self c s df : c ∈ columns (setitem c s df).
Proof.
  rewrite columns_setitem. destruct (decide (c ∈ columns df)); [done|].
  apply elem_of_app. right. by left.
Qed.

Lemma get_response_stats_run (self : LeadManager) :
  let df := get_leads self in
  let notes := column "notes" df in
  let noted := Z.of_nat (length (with_notes notes)) in
  empty df = false -> "notes" ∈ columns df ->
  get_response_stats self
  = ({| storage := storage self;
        _leads_df := setitem "notes" (astype_str (fillna (Str "") notes)) df |},
     inr {| leads_with_notes := noted;
            notes_percentage :=
              (inject_Z noted / inject_Z (Z.of_nat (len df)) * 100)%Q;
            avg_notes_length :=
              if (0 <? noted)%Z then mean_over_all notes else 0%Q |}).
Proof.
  intros df notes noted Hempty Hnotes.
  unfold get_response_stats. fold df. rewrite Hempty.
  rewrite (getitem_column _ _ Hnotes). fold notes.
  rewrite (getitem_column "notes" (setitem "notes" _ df))
    by apply columns_setitem_self.
  rewrite column_setitem, decide_True by done.
  cbn [mbind exn_bind mret exn_ret].
  rewrite str_len_coerced.
  replace (Z.of_nat (length (filter (fun n => (0 < n)%Z) (note_length <$> notes))))
    with noted by (unfold noted, with_notes; by rewrite filter_fmap_length).
  replace (mean (note_length <$> notes)) with (mean_over_all notes)
    by (unfold mean, mean_over_all; by rewrite length_fmap).
  reflexivity.
Qed.

Lemma with_notes_coerced notes :
  length (with_notes (astype_str (fillna (Str "") notes)))
  = length (with_notes notes).
Proof.
  unfold with_notes, astype_str, fillna. rewrite <- list_fmap_compose.
  rewrite filter_fmap_length. f_equal. apply list_filter_iff.
  by intros [|x].
Qed.

Lemma mean_over_all_coerced notes :
  mean_over_all (astype_str (fillna (Str "") notes)) = mean_over_all notes.
Proof.
  unfold mean_over_all.
  replace (note_length <$> astype_str (fillna (Str "") notes))
    with (note_length <$> notes).
  - unfold astype_str, fillna. by rewrite !length_fmap.
  - unfold astype_str, fillna. rewrite <- !list_fmap_compose.
    apply list_fmap_ext. by intros i [|x] _.
Qed.

(** X15: [get_response_stats] is idempotent.  A second call on the manager
    that the first call leaves returns the same statistics and leaves the
    same manager; the call never writes to the store and keeps the row
    labels; and when it returns statistics for a table with records, no
    cell of the notes column in place is a missing value any more, also
    when the caller only wanted to read. *)
Theorem get_response_stats_idempotent (self : LeadManager) :
  let out := get_response_stats self in
  get_response_stats out.1 = out
  /\ storage out.1 = storage self
  /\ index (_leads_df out.1) = index (_leads_df self)
  /\ (forall r, empty (get_leads self) = false -> out.2 = inr r ->
        Forall (fun c => isna c = false) (column "notes" (_leads_df out.1))).
Proof.
  intros out. unfold out.
  destruct (empty (get_leads self)) eqn:Hempty.
  { assert (Hrun : get_response_stats self
                   = (self, inr {| leads_with_notes := 0; notes_percentage := 0;
                                   avg_notes_length := 0 |})).
    { unfold get_response_stats. by rewrite Hempty. }
    rewrite Hrun. cbn [fst snd]. rewrite Hrun. repeat split; done. }
  destruct (decide ("notes" ∈ columns (get_leads self))) as [Hnotes|Hnotes].
  - rewrite (get_response_stats_run self Hempty Hnotes). cbn [fst snd].
    set (df := get_leads self).
    set (coerced := astype_str (fillna (Str "") (column "notes" df))).
    set (self' := {| storage := storage self;
                     _leads_df := setitem "notes" coerced df |}).
    split; [|split; [done|split; [done|]]].
    + rewrite (get_response_stats_run self')
        by (try apply empty_setitem; try apply columns_setitem_self; done).
      unfold self', get_leads. cbn [storage _leads_df].
      rewrite column_setitem, decide_True by done.
      rewrite setitem_twice. unfold coerced.
      rewrite coerced_twice, with_notes_coerced, mean_over_all_coerced.
      reflexivity.
    + intros r _ _. unfold self'. cbn [_leads_df].
      rewrite column_setitem, decide_True by done. apply coerced_strings.
  - assert (Hrun : get_response_stats self
                   = (self, inl (KeyError "'notes'"))).
    { unfold get_response_stats. rewrite Hempty. unfold getitem.
      by rewrite (proj2 (lookup_column_None "notes" (data (get_leads self))) Hnotes). }
    rewrite Hrun. cbn [fst snd]. rewrite Hrun. repeat split; done.
Qed.

Lemma get_response_stats_idempotent_witness :
  Forall (fun c => isna c = false)
         (column "notes" (_leads_df (get_response_stats sample_manager).1))
  /\ get_response_stats (get_response_stats sample_manager).1
     = get_response_stats sample_manager.
Proof.
  destruct (get_response_stats_idempotent sample_manager) as (Hsame & _ & _ & Hstr).
  split; [|exact Hsame].
  destruct (get_response_stats sample_manager).2 as [e|r] eqn:Hr;
    [vm_compute in Hr; discriminate|].
  apply (Hstr r); reflexivity.
Defined.

Lemma sum_note_length_ge notes :
  (Z.of_nat (length (with_notes notes)) <= sum_list (note_length <$> notes))%Z.
Proof.
  unfold with_notes, sum_list. induction notes as [|c notes IH]; [done|].
  rewrite filter_cons, fmap_cons. cbn [foldr].
  destruct (decide (0 < note_length c)%Z); cbn [length]; [lia|].
  assert (0 <= note_length c)%Z by (destruct c; simpl; lia). lia.
Qed.

Lemma Qdiv_nonneg (a b : Z) :
  (0 <= a)%Z -> (0 < b)%Z -> (0 <= inject_Z a / inject_Z b)%Q.
Proof.
  intros Ha Hb. destruct b as [|w|w]; [lia| |lia].
  unfold Qle, Qdiv, Qmult, Qinv, inject_Z. cbn. nia.
Qed.

Lemma Qdiv_pos (a b : Z) :
  (0 < a)%Z -> (0 < b)%Z -> (0 < inject_Z a / inject_Z b)%Q.
Proof.
  intros Ha Hb. destruct b as [|w|w]; [lia| |lia].
  unfold Qlt, Qdiv, Qmult, Qinv, inject_Z. cbn. nia.
Qed.

(** X16: for a well-formed table of [n] records, [n] not 0, the number of
    leads with notes that [get_response_stats] returns is between 0 and
    [n], the percentage between 0 and 100, and the average length is never
    negative: it is 0 exactly when no record has notes. *)
Theorem get_response_stats_bounds (self : LeadManager) :
  let df := get_leads self in
  let n := Z.of_nat (len df) in
  wf df = true ->
  empty df = false ->
  "notes" ∈ columns df ->
  exists r,
    (get_response_stats self).2 = inr r
    /\ (0 <= leads_with_notes r <= n)%Z
    /\ (0 <= notes_percentage r)%Q /\ (notes_percentage r <= 100)%Q
    /\ (0 <= avg_notes_length r)%Q
    /\ (leads_with_notes r = 0%Z -> avg_notes_length r = 0%Q)
    /\ ((0 < leads_with_notes r)%Z -> (0 < avg_notes_length r)%Q).
Proof.
  intros df n Hwf Hempty Hnotes.
  pose proof (empty_false_len df Hempty) as Hn. fold n in Hn.
  rewrite (get_response_stats_run self Hempty Hnotes). cbn [snd].
  eexists. split; [reflexivity|].
  cbn [leads_with_notes notes_percentage avg_notes_length].
  fold df. fold n. set (notes := column "notes" df).
  assert (Hlen : Z.of_nat (length notes) = n).
  { unfold notes, n. by rewrite (wf_column_length _ _ Hwf Hnotes). }
  assert (Hnoted : (0 <= Z.of_nat (length (with_notes notes)) <= n)%Z).
  { rewrite <- Hlen. unfold with_notes.
    pose proof (length_filter (fun c => (0 < note_length c)%Z) notes). lia. }
  pose proof (sum_note_length_ge notes) as Hsum.
  split; [exact Hnoted|].
  split; [by apply percent_bounds|]. split; [by apply percent_bounds|].
  split; [|split].
  - destruct (0 <? _)%Z; [|done]. unfold mean_over_all. rewrite Hlen.
    apply Qdiv_nonneg; lia.
  - intros H0. by rewrite H0.
  - intros Hpos. rewrite (proj2 (Z.ltb_lt _ _) Hpos).
    unfold mean_over_all. rewrite Hlen. apply Qdiv_pos; lia.
Qed.

Lemma get_response_stats_bounds_witness :
  exists r,
    (get_response_stats sample_pipeline).2 = inr r
    /\ (0 <= leads_with_notes r <= 6)%Z
    /\ (0 <= notes_percentage r)%Q /\ (notes_percentage r <= 100)%Q.
Proof.
  destruct (get_response_stats_bounds sample_pipeline)
    as (r & Hrun & Hn & Hp0 & Hp1 & _); [reflexivity | reflexivity | compute_done |].
  exists r. split; [exact Hrun|]. split; [exact Hn|]. split; [exact Hp0|exact Hp1].
Defined.

(** ** An edit and a restart *)












(** ** The same import, twice *)

Lemma setitem_column_self c df : c ∈ columns df -> setitem c (column c df) df = df.
Proof.
  intros Hc. destruct df as [ix d]. unfold setitem, column, columns in *.
  cbn [index data] in *. f_equal.
  induction d as [|[c' s'] d IH]; [inversion Hc|].
  cbn. destruct (decide (c' = c)) as [->|Hne]; [done|].
  f_equal. apply IH. cbn in Hc. apply elem_of_cons in Hc as [?|?]; [congruence|done].
Qed.

Lemma assoc_last_NoDup keys values i k :
  NoDup keys -> length keys = length values -> keys !! i = Some k ->
  assoc_last k (zip keys values) = values !! i.
Proof.
  intros Hnd Hlen Hi. apply assoc_last_at; [done|done|].
  intros j Hj Hk. pose proof (NoDup_lookup _ _ _ _ Hnd Hi Hk). lia.
Qed.

Lemma where_mask_to_dict keys values old :
  NoDup keys -> length keys = length values -> length old = length keys ->
  where_mask (isin keys (to_dict keys values))
             (map_dict keys (to_dict keys values)) old
  = values.
Proof.
  intros Hnd Hlen Hold. apply list_eq. intros i.
  destruct (keys !! i) as [k|] eqn:Hk.
  - destruct (lookup_lt_is_Some_2 old i) as [o Ho].
    { rewrite Hold. by eapply lookup_lt_Some. }
    unfold isin, map_dict.
    rewrite (where_mask_fmap
               (fun c => bool_decide (is_Some (to_dict keys values !! c)))
               (fun c => default NaN (to_dict keys values !! c))
               keys old i k o Hk Ho).
    rewrite to_dict_lookup, (assoc_last_NoDup keys values i k) by done.
    destruct (values !! i) as [v|] eqn:Hv.
    + by rewrite bool_decide_eq_true_2 by eauto.
    + exfalso. apply lookup_ge_None in Hv. apply lookup_lt_Some in Hk. lia.
  - apply lookup_ge_None in Hk.
    rewrite !lookup_ge_None_2; [done|lia|rewrite where_mask_length; lia].
Qed.

Lemma where_mask_Forall (P : cell -> Prop) mask new old :
  Forall P old ->
  (forall i n, mask !! i = Some true -> new !! i = Some n -> P n) ->
  Forall P (where_mask mask new old).
Proof.
  revert new old. induction mask as [|b mask IH]; intros new old Hold Hnew;
    [done|].
  destruct new as [|n new]; [done|]. destruct old as [|o old]; [done|].
  cbn [where_mask]. apply Forall_cons in Hold as [Ho Hold].
  apply Forall_cons_2.
  - destruct b; [|done]. by apply (Hnew 0%nat).
  - apply IH; [done|]. intros i n' Hi Hn. by apply (Hnew (S i)).
Qed.

Lemma assoc_last_elem k v (l : list (cell * cell)) :
  assoc_last k l = Some v -> (k, v) ∈ l.
Proof.
  induction l as [|[k' v'] l IH]; [done|]. cbn.
  destruct (assoc_last k l) as [v0|].
  - intros [= <-]. right. by apply IH.
  - destruct (decide (k' = k)) as [->|]; [|done]. intros [= <-]. left.
Qed.

Lemma to_dict_lookup_elem keys values k v :
  to_dict keys values !! k = Some v -> v ∈ values.
Proof.
  rewrite to_dict_lookup. intros H. apply assoc_last_elem in H.
  by apply elem_of_zip_r in H.
Qed.

Lemma coerced_id l :
  Forall (fun c => isna c = false) l -> astype_str (fillna (Str "") l) = l.
Proof.
  unfold astype_str, fillna. induction 1 as [|c l Hc _ IH]; [done|].
  cbn. rewrite Hc. cbn in IH. rewrite IH. by destruct c.
Qed.

Lemma where_mask_strings us keys values old :
  Forall (fun c => isna c = false) values ->
  Forall (fun c => isna c = false) old ->
  Forall (fun c => isna c = false)
         (where_mask (isin us (to_dict keys values))
                     (map_dict us (to_dict keys values)) old).
Proof.
  intros Hvalues Hold. apply where_mask_Forall; [done|].
  intros i n Hmask Hnew. unfold isin, map_dict in *.
  rewrite list_lookup_fmap in Hmask. rewrite list_lookup_fmap in Hnew.
  destruct (us !! i) as [k|]; [|done]. cbn in Hmask, Hnew.
  injection Hmask as Hmask. injection Hnew as <-.
  apply bool_decide_eq_true in Hmask as [v Hv]. rewrite Hv. cbn.
  apply to_dict_lookup_elem in Hv.
  rewrite Forall_forall in Hvalues. by apply Hvalues.
Qed.

(** The table that a first import puts in place: the prepared table with
    a status column and a notes column of strings. *)
Lemma merged_leads_once existing imported :
  is_leads_table existing = true ->
  wf imported = true ->
  missing_columns imported = [] ->
  exists S1 N1,
    merged_leads existing (inr imported)
    = inr (setitem "notes" N1 (setitem "status" S1 (prepared_table imported)))
    /\ length S1 = len (prepared_table imported)
    /\ length N1 = len (prepared_table imported)
    /\ Forall (fun c => isna c = false) N1.
Proof.
  intros HE Hwf Hmiss.
  set (P := prepared_table imported).
  assert (HwfP : wf P = true) by (by apply prepared_table_wf).
  assert (Hcols : forall c, c ∈ lead_columns -> c ∈ columns P)
    by (intros c Hc; by apply prepared_table_lead_columns).
  assert (Hst : "status" ∈ columns P) by (apply Hcols; compute_done).
  assert (Hno : "notes" ∈ columns P) by (apply Hcols; compute_done).
  assert (Hur : "url" ∈ columns P) by (apply Hcols; compute_done).
  assert (Hstrings : Forall (fun c => isna c = false) (column "notes" P)).
  { destruct (prepared_table_spec imported Hmiss) as (_ & _ & _ & _ & Hn & _).
    fold P in Hn. rewrite Hn. unfold imported_notes. apply coerced_strings. }
  rewrite merged_leads_run by done. fold P.
  destruct (empty existing) eqn:Hempty; cbn [negb].
  - exists (column "status" P), (column "notes" P).
    rewrite (setitem_column_self "status" P) by done.
    rewrite (setitem_column_self "notes" P) by done.
    split; [done|]. split; [by apply wf_column_length|].
    split; [by apply wf_column_length|done].
  - pose proof (merge_existing_ok existing P) as Hm. cbv zeta in Hm.
    rewrite Hm
      by (first [done | apply (is_leads_table_columns _ _ HE); compute_done]).
    do 2 eexists. split; [reflexivity|].
    rewrite !where_mask_length.
    split; [by apply wf_column_length|]. split; [by apply wf_column_length|].
    apply where_mask_strings; [apply coerced_strings|done].
Qed.

(** X18: importing the same file a second time changes nothing.  When the
    table in place is a table of leads and the imported table is
    well-formed, has the required columns and lists no url twice, both
    calls of [sync_leads] succeed and the second leaves the table that the
    first has put in place. *)
Theorem sync_leads_same_import_again (self : LeadManager) (imported : DataFrame) :
  is_leads_table (_leads_df self) = true ->
  wf imported = true ->
  (forall col, col ∈ required_columns -> col ∈ columns imported) ->
  NoDup (column "url" imported) ->
  let once := sync_leads (inr imported) self in
  let twice := sync_leads (inr imported) once.1 in
  once.2 = (true, None)
  /\ twice.2 = (true, None)
  /\ _leads_df twice.1 = _leads_df once.1.
Proof.
  intros HE Hwf Hreq Hnd once twice.
  assert (Hmiss : missing_columns imported = []).
  { destruct (missing_columns imported) as [|x l] eqn:Hm; [done|].
    assert (Hx : x ∈ missing_columns imported) by (rewrite Hm; left).
    apply missing_columns_spec in Hx as [Hx1 Hx2]. by apply Hreq in Hx1. }
  set (P := prepared_table imported).
  assert (HwfP : wf P = true) by (by apply prepared_table_wf).
  assert (Hcols : forall c, c ∈ lead_columns -> c ∈ columns P)
    by (intros c Hc; by apply prepared_table_lead_columns).
  assert (Hst : "status" ∈ columns P) by (apply Hcols; compute_done).
  assert (Hno : "notes" ∈ columns P) by (apply Hcols; compute_done).
  assert (Hur : "url" ∈ columns P) by (apply Hcols; compute_done).
  assert (Hurl : column "url" P = column "url" imported).
  { destruct (prepared_table_spec imported Hmiss) as (_ & _ & Hc & _).
    fold P in Hc. rewrite (Hc "url") by done. by rewrite decide_False by compute_done. }
  destruct (merged_leads_once _ imported HE Hwf Hmiss)
    as (S1 & N1 & Hrun1 & HS1 & HN1 & Hstr). fold P in Hrun1, HS1, HN1.
  set (M1 := setitem "notes" N1 (setitem "status" S1 P)) in *.
  assert (Honce : once = ({| storage := save_progress M1 (storage self);
                             _leads_df := M1 |}, (true, None))).
  { unfold once, sync_leads. by rewrite Hrun1. }
  assert (Hrun2 : merged_leads M1 (inr imported) = inr M1).
  { rewrite merged_leads_run by done. fold P.
    assert (Hc1 : "status" ∈ columns (setitem "status" S1 P))
      by (by rewrite columns_setitem_in).
    assert (HcM : forall c, c ∈ columns P -> c ∈ columns M1).
    { intros c Hc. unfold M1. rewrite columns_setitem_in.
      - by rewrite columns_setitem_in.
      - by rewrite columns_setitem_in. }
    destruct (empty M1) eqn:Hempty; cbn [negb].
    - assert (Hlen : len P = 0%nat).
      { unfold empty in Hempty. apply orb_true_iff in Hempty as [H|H].
        - apply bool_decide_eq_true in H. unfold len.
          change (index M1) with (index P) in H. by rewrite H.
        - apply bool_decide_eq_true in H. exfalso.
          assert (Hin : "notes" ∈ columns M1) by (by apply HcM).
          unfold columns in Hin. rewrite H in Hin. inversion Hin. }
      rewrite Hlen in HS1, HN1.
      apply nil_length_inv in HS1, HN1.
      assert (Hs0 : column "status" P = []).
      { apply nil_length_inv. by rewrite wf_column_length. }
      assert (Hn0 : column "notes" P = []).
      { apply nil_length_inv. by rewrite wf_column_length. }
      assert (HM1 : M1 = setitem "notes" (column "notes" P)
                           (setitem "status" (column "status" P) P))
        by (unfold M1; congruence).
      rewrite HM1, (setitem_column_self "status" P) by done.
      by rewrite (setitem_column_self "notes" P).
    - pose proof (merge_existing_ok M1 P) as Hm. cbv zeta in Hm.
      rewrite Hm by (try apply HcM; done). clear Hm.
      assert (HuM : column "url" M1 = column "url" P).
      { unfold M1. rewrite !column_setitem. by distinct_names. }
      assert (HsM : column "status" M1 = S1).
      { unfold M1. rewrite !column_setitem. distinct_names.
        by rewrite decide_True. }
      assert (HnM : column "notes" M1 = N1).
      { unfold M1. rewrite column_setitem. by rewrite decide_True. }
      rewrite HuM, HsM, HnM, (coerced_id N1) by done.
      assert (Hlu : length (column "url" P) = len P) by (by apply wf_column_length).
      rewrite !where_mask_to_dict;
        try (rewrite Hurl; exact Hnd); try (rewrite wf_column_length by done);
        try done; try congruence. }
  split; [by rewrite Honce|].
  assert (Htwice : twice = ({| storage := save_progress M1 (storage once.1);
                               _leads_df := M1 |}, (true, None))).
  { unfold twice, sync_leads. rewrite Honce. cbn [fst _leads_df].
    by rewrite Hrun2. }
  split; [by rewrite Htwice|]. by rewrite Htwice, Honce.
Qed.

Lemma sync_leads_same_import_again_witness :
  (sync_leads (inr sample_import) sample_manager).2 = (true, None)
  /\ _leads_df (sync_leads (inr sample_import)
                  (sync_leads (inr sample_import) sample_manager).1).1
     = _leads_df (sync_leads (inr sample_import) sample_manager).1.
Proof.
  destruct (sync_leads_same_import_again sample_manager sample_import)
    as (Hfirst & _ & Hsame).
  - reflexivity.
  - reflexivity.
  - intros col Hcol. unfold required_columns in Hcol.
    repeat (apply elem_of_cons in Hcol as [->|Hcol]; [compute_done|]).
    inversion Hcol.
  - compute_done.
  - split; [exact Hfirst|exact Hsame].
Defined.

(** Without the hypothesis on the urls the second import can change the
    table: of two rows with the same url and different statuses, the
    first takes the status of the second. *)
Example sync_leads_repeated_url_again :
  column "status" (_leads_df (sync_leads (inr sample_repeated_url) fresh_manager).1)
  = [Str "Contacted"; Str "New"]
  /\ column "status"
       (_leads_df (sync_leads (inr sample_repeated_url)
                     (sync_leads (inr sample_repeated_url) fresh_manager).1).1)
     = [Str "New"; Str "New"].
Proof. split; vm_compute; reflexivity. Qed.
